(** * Piano-LED-Visualizer: practice engine and flying-notes renderer

  A shallow embedding of [lib/learnmidi.py] (class [LearnMIDI]) and
  [lib/flying_notes_renderer.py] (class [FlyingNotesRenderer]).

  Conventions of the embedding.
  - Python [int] is [Z].  In the practice engine a Python [float] is
    read over the exact rationals [Q]: its floats are added up, tested
    for their sign and compared as they are stored.  In the renderer a
    [float] is an IEEE-754 binary64 number ([Float64], on the Standard
    Library's [SpecFloat]), because which notes a frame shows depends
    on how a sum and a quotient are rounded.
  - A raised exception is [None] in an [option] result.
  - Threads are interleaved explicitly: the practice engine is a
    deterministic step function on a configuration, and what the
    other threads do (queue a key event, call [restart_loop], clear
    [is_started_midi], let time pass) are separate actions.
  - LED writes ([setPixelColor], [show], [fastColorWipe]) are outputs
    that nothing in the control flow reads back; they are left out,
    together with the hint buffers that only feed them. *)

From Stdlib Require Import ZArith QArith Qfield Qabs Qround List Bool Lia Lqa
  Permutation SpecFloat.
Import ListNotations.

Local Open Scope Z_scope.

(** ** Python list primitives *)

Module Py.

(** [l[i]] with Python's negative indices; [None] is [IndexError]. *)
Definition index {A : Type} (l : list A) (i : Z) : option A :=
  let n := Z.of_nat (length l) in
  if 0 <=? i then nth_error l (Z.to_nat i)
  else if - n <=? i then nth_error l (Z.to_nat (n + i))
  else None.

(** Bound normalisation of a slice [l[a:b]]. *)
Definition clip (n i : Z) : Z :=
  if i <? 0 then Z.max 0 (n + i) else Z.min n i.

(** [l[a:b]]: a fresh list, never an error. *)
Definition slice {A : Type} (l : list A) (a b : Z) : list A :=
  let n := Z.of_nat (length l) in
  let a' := clip n a in
  let b' := clip n b in
  firstn (Z.to_nat (b' - a')) (skipn (Z.to_nat a') l).

(** [int(x)] on a float: truncation toward zero. *)
Definition int (x : Q) : Z := Z.quot (Qnum x) (Zpos (Qden x)).

(** [x in l] on a list of ints. *)
Definition mem (x : Z) (l : list Z) : bool := existsb (Z.eqb x) l.

(** [l.remove(x)]: drops the first occurrence; the [ValueError] of a
    missing element is swallowed at both call sites. *)
Fixpoint remove (x : Z) (l : list Z) : list Z :=
  match l with
  | [] => []
  | y :: t => if Z.eqb x y then t else y :: remove x t
  end.

(** [set(a).issubset(b)]. *)
Definition issubset (a b : list Z) : bool := forallb (fun x => mem x b) a.

(** Truthiness of a list. *)
Definition truthy {A : Type} (l : list A) : bool :=
  match l with [] => false | _ :: _ => true end.

End Py.

(** ** MIDI messages

  What the code reads of a [mido] message: [is_meta], [type],
  [channel], [note], [velocity] and [time].  Track messages carry
  their delta time in ticks. *)

Inductive Msg : Type :=
| MetaMessage (time : Z)
| NoteOn (channel note velocity time : Z)
| NoteOff (channel note velocity time : Z)
| OtherMessage (channel : option Z) (time : Z).
  (* control_change, program_change, ...; sysex has no channel *)

Definition is_meta (m : Msg) : bool :=
  match m with MetaMessage _ => true | _ => false end.

Definition msg_time (m : Msg) : Z :=
  match m with
  | MetaMessage t | NoteOn _ _ _ t | NoteOff _ _ _ t | OtherMessage _ t => t
  end.

(** [msg.type == 'note_on' or msg.type == 'note_off'] *)
Definition is_note_msg (m : Msg) : bool :=
  match m with NoteOn _ _ _ _ | NoteOff _ _ _ _ => true | _ => false end.

(** [msg.channel]; [None] is the [AttributeError] of a message without
  that attribute. *)
Definition msg_channel (m : Msg) : option Z :=
  match m with
  | NoteOn c _ _ _ | NoteOff c _ _ _ => Some c
  | OtherMessage c _ => c
  | MetaMessage _ => None
  end.

(** ** Timeline arithmetic *)

Module Timeline.

Local Open Scope Q_scope.

(** Division that raises [ZeroDivisionError]. *)
Definition pydiv (a b : Q) : option Q :=
  if Qeq_bool b 0 then None else Some (a / b).

(** [mido.tick2second(tick, ticks_per_beat, tempo)]:
    [scale = tempo * 1e-6 / ticks_per_beat; return tick * scale]. *)
Definition tick2second (tick ticks_per_beat : Z) (tempo : Q) : option Q :=
  match pydiv (tempo * (1 # 1000000)) (inject_Z ticks_per_beat) with
  | Some scale => Some (inject_Z tick * scale)
  | None => None
  end.

(** The third argument at both call sites of [learnmidi.py]:
    [self.song_tempo * 100 / self.set_tempo]. *)
Definition effective_tempo (song_tempo set_tempo : Z) : option Q :=
  pydiv (inject_Z (song_tempo * 100)) (inject_Z set_tempo).

(** Line 477, [tDelay] of one message. *)
Definition tDelay (song_tempo set_tempo ticks_per_beat : Z) (m : Msg) : option Q :=
  match effective_tempo song_tempo set_tempo with
  | Some tempo => tick2second (msg_time m) ticks_per_beat tempo
  | None => None
  end.

(** A message as [for msg in mid] yields it: [mido] has already
    turned the delta into seconds. *)
Record PlayMsg : Type := { pm_is_meta : bool; pm_time : Q }.

(** [load_midi], lines 340-345: the running sum over the non-meta
    messages, appended to the (cleared) [notes_time]. *)
Fixpoint accumulate (time_passed : Q) (notes_time : list Q) (mid : list PlayMsg)
  : list Q :=
  match mid with
  | [] => notes_time
  | msg :: rest =>
      if pm_is_meta msg then accumulate time_passed notes_time rest
      else
        let time_passed := time_passed + pm_time msg in
        accumulate time_passed (notes_time ++ [time_passed]) rest
  end.

Definition load_notes_time (mid : list PlayMsg) : list Q := accumulate 0 [] mid.

(** Following the specification's words:
    [seconds = ticks * tempo_micros_per_beat / (ticks_per_beat * 1_000_000)],
    "accumulated across the sequence": the absolute time of the last
    event of a sequence is the sum over every event of it, meta events
    included. *)
Definition seconds_of (tempo ticks_per_beat ticks : Z) : Q :=
  inject_Z ticks * inject_Z tempo / (inject_Z ticks_per_beat * 1000000).

Fixpoint absolute_seconds (tempo ticks_per_beat : Z) (events : list Msg) : Q :=
  match events with
  | [] => 0
  | m :: rest =>
      seconds_of tempo ticks_per_beat (msg_time m)
      + absolute_seconds tempo ticks_per_beat rest
  end.



(** Non-decreasing, as a chain of adjacent comparisons. *)
Fixpoint nondecreasing (l : list Q) : Prop :=
  match l with
  | [] => True
  | x :: t => match t with [] => True | y :: _ => x <= y end /\ nondecreasing t
  end.

End Timeline.

(** ** Colour policy of [LearnMIDI] *)

Module Colors.

Inductive Hand : Type := left | right.
Inductive KeyType : Type := white | black.
Definition RGB : Type := (Z * Z * Z)%type.

(** [get_note_type]: black keys are C#, D#, F#, G#, A#. *)
Definition get_note_type (note : Z) : KeyType :=
  let note_in_octave := note mod 12 in
  if Py.mem note_in_octave [1; 3; 6; 8; 10] then black else white.

(** [self.learn_colors].  [_load_enhanced_colors] returns the complete
    hand x key x timing dictionary on both of its paths, so the table is
    total and the [KeyError] fallback of [get_learn_color] is never
    taken. *)
Definition LearnColors : Type := Hand -> KeyType -> bool -> RGB.

Definition get_learn_color (learn_colors : LearnColors)
  (hand : Hand) (note_type : KeyType) (is_upcoming : bool) : RGB :=
  learn_colors hand note_type is_upcoming.

(** The defaults of [_load_enhanced_colors]. *)
Definition default_colors : LearnColors :=
  fun hand note_type is_upcoming =>
    match hand, note_type, is_upcoming with
    | left, white, false => (0, 255, 0)
    | left, white, true => (0, 128, 0)
    | left, black, false => (0, 200, 0)
    | left, black, true => (0, 100, 0)
    | right, white, false => (0, 0, 255)
    | right, white, true => (0, 0, 128)
    | right, black, false => (0, 0, 200)
    | right, black, true => (0, 0, 100)
    end.

End Colors.

(** ** The loaded song, as both components read it *)

Record Song : Type := {
  song_tracks : list Msg;
  song_tempo : Z;
  ticks_per_beat : Z
}.

(** ** Python floats

  A Python [float] is an IEEE-754 binary64 number: 53 bits of
  precision, round to nearest, ties to even, with signed zeros,
  infinities and NaN.  The arithmetic is [SpecFloat]'s. *)

Module Float64.

Definition float : Type := spec_float.

Definition prec : Z := 53.
Definition emax : Z := 1024.

Definition add (x y : float) : float := SFadd prec emax x y.
Definition sub (x y : float) : float := SFsub prec emax x y.
Definition mul (x y : float) : float := SFmul prec emax x y.

(** The IEEE quotient. *)
Definition div (x y : float) : float := SFdiv prec emax x y.

(** [x == 0.0] *)
Definition is_zero (x : float) : bool :=
  match x with S754_zero _ => true | _ => false end.

(** [x / y] as Python has it: [None] is the [ZeroDivisionError] of a
    zero divisor, of either sign. *)
Definition truediv (x y : float) : option float :=
  if is_zero y then None else Some (div x y).

(** [x <= y]: false as soon as one side is NaN. *)
Definition le (x y : float) : bool := SFleb x y.

(** An integer as a float without rounding: a mantissa of any size
    with exponent 0.  Only an operand of the division below. *)
Definition exact (n : Z) : float :=
  match n with
  | Z0 => S754_zero false
  | Zpos p => S754_finite false p 0
  | Zneg p => S754_finite true p 0
  end.

(** [float(n)]: the float nearest to an [int] (the [int] itself up to
    2^53). *)
Definition of_Z (n : Z) : float := binary_normalize prec emax n 0 false.

(** The float nearest to a rational: the value of a decimal literal,
    and what [a / b] returns for two [int]s. *)
Definition of_Q (q : Q) : float := div (exact (Qnum q)) (exact (Zpos (Qden q))).

End Float64.

(** ** Flying-notes renderer *)

Module Renderer.

Import Colors.
Local Open Scope Q_scope.

Record PianoKey : Type := {
  key_midi_note : Z;
  key_x_position : Z;
  key_is_black : bool;
  key_width : Z
}.

Definition black_key_offset (note_in_octave : Z) : Z :=
  match note_in_octave with
  | 1 => -6 | 3 => 6 | 6 => -8 | 8 => 0 | 10 => 8
  | _ => 0 (* not a black key: never looked up *)
  end%Z.

(** The body of the [for midi_note in range(21, 109)] loop. *)
Fixpoint layout_loop (notes : list Z) (white_key_count : Z) (keys : list PianoKey)
  : list PianoKey :=
  match notes with
  | [] => keys
  | midi_note :: rest =>
      let note_in_octave := (midi_note mod 12)%Z in
      let is_black := Py.mem note_in_octave [1; 3; 6; 8; 10]%Z in
      if negb is_black then
        let x_position := (white_key_count * 20)%Z in
        layout_loop rest (white_key_count + 1)%Z
          (keys ++ [{| key_midi_note := midi_note; key_x_position := x_position;
                       key_is_black := is_black; key_width := 20 |}])
      else
        let x_position :=
          ((white_key_count - 1) * 20 + 20 / 2 + black_key_offset note_in_octave)%Z in
        layout_loop rest white_key_count
          (keys ++ [{| key_midi_note := midi_note; key_x_position := x_position;
                       key_is_black := is_black; key_width := 12 |}])
  end.

(** [range(a, b)] *)
Definition range (a b : Z) : list Z :=
  map (fun i => (a + Z.of_nat i)%Z) (seq 0 (Z.to_nat (b - a))).

(** [_generate_piano_layout]; [self.piano_keys] is assigned this once
    in [__init__] and never written again. *)
Definition _generate_piano_layout : list PianoKey :=
  layout_loop (range 21 109) 0%Z [].

Definition piano_keys : list PianoKey := Eval vm_compute in _generate_piano_layout.

(** [self.settings], the keys the code reads.  The four the frame
    arithmetic reads are floats; where the dictionary holds an [int]
    (the literals of [__init__], a whole number from the interface) it
    is the float of the same value. *)
Record Settings : Type := {
  enabled : bool;
  speed : Float64.float;
  note_height : Z;
  keyboard_height : Float64.float;
  show_measures : bool;
  animation_smoothness : Z;
  canvas_height : Float64.float;
  fall_distance : Float64.float
}.

(** The dictionary literal of [__init__]. *)
Definition default_settings : Settings := {|
  enabled := false; speed := Float64.of_Z 1; note_height := 20;
  keyboard_height := Float64.of_Z 80;
  show_measures := true; animation_smoothness := 60;
  canvas_height := Float64.of_Z 600; fall_distance := Float64.of_Z 520
|}.

(** An entry of [notes_buffer] ([note_data]).  [nd_start_time] is the
    exact quotient of the two [int]s of line 140; the float Python
    stores, and the frame code reads, is the one nearest to it
    ([Float64.of_Q]). *)
Record NoteData : Type := {
  nd_midi_note : Z;
  nd_channel : Z;
  nd_velocity : Z;
  nd_start_time : Q;
  nd_duration : Q;
  nd_hand : Hand;
  nd_note_type : KeyType
}.

(** An entry of a frame's ['notes'] list. *)
Record VisibleNote : Type := {
  vn_midi_note : Z;
  vn_x_position : Z;
  vn_y_position : Float64.float;
  vn_width : Z;
  vn_height : Z;
  vn_color : RGB;
  vn_hand : Hand;
  vn_velocity : Z;
  vn_is_black_key : bool
}.

Record Frame : Type := {
  frame_notes : list VisibleNote;
  frame_piano_keys : list PianoKey;
  frame_settings : Settings
}.

(** What is handed to [client.send]. *)
Inductive Message : Type :=
| StopMessage
| FrameUpdate (data : Frame) (current_time : Float64.float).

(** The renderer object.  A client is named by an integer; the thread
    object is kept as "has one been created". *)
Record State : Type := {
  websocket_clients : list Z;
  is_active : bool;
  animation_thread : bool;
  notes_buffer : list NoteData;
  current_time : Float64.float;
  start_time : Float64.float;
  settings : Settings
}.

(** [deque(maxlen=1000).append]: a full deque drops its oldest entry. *)
Definition deque_append (buf : list NoteData) (x : NoteData) : list NoteData :=
  if (1000 <=? length buf)%nat then tl buf ++ [x] else buf ++ [x].

(** The loop of [_load_notes_from_midi]; [None] is the
    [ZeroDivisionError] of line 140. *)
Fixpoint load_loop (sg : Song) (msgs : list Msg) (current_time : Z)
  (buf : list NoteData) : option (list NoteData) :=
  match msgs with
  | [] => Some buf
  | msg :: rest =>
      if is_meta msg then load_loop sg rest current_time buf
      else
        let current_time := (current_time + msg_time msg)%Z in
        match msg with
        | NoteOn channel note velocity _ =>
            if (0 <? velocity)%Z then
              match Timeline.pydiv (inject_Z (current_time * song_tempo sg))
                      (inject_Z (ticks_per_beat sg * 1000000)) with
              | None => None
              | Some time_seconds =>
                  let note_data := {|
                    nd_midi_note := note; nd_channel := channel;
                    nd_velocity := velocity; nd_start_time := time_seconds;
                    nd_duration := 1;
                    nd_hand := if (channel =? 1)%Z then right else left;
                    nd_note_type := get_note_type note |} in
                  load_loop sg rest current_time (deque_append buf note_data)
              end
            else load_loop sg rest current_time buf
        | _ => load_loop sg rest current_time buf
        end
  end.

Definition set_buffer (buf : list NoteData) (r : State) : State := {|
  websocket_clients := websocket_clients r; is_active := is_active r;
  animation_thread := animation_thread r; notes_buffer := buf;
  current_time := current_time r; start_time := start_time r;
  settings := settings r |}.

(** [_load_notes_from_midi] *)
Definition _load_notes_from_midi (sg : Song) (r : State) : option State :=
  if negb (Py.truthy (song_tracks sg)) then Some r
  else
    match load_loop sg (song_tracks sg) 0%Z [] with
    | Some buf => Some (set_buffer buf r)
    | None => None
    end.

(** The key lookup of line 205:
    [next((k for k in self.piano_keys if k['midi_note'] == n), None)]. *)
Definition key_info (midi_note : Z) : option PianoKey :=
  find (fun k => (key_midi_note k =? midi_note)%Z) piano_keys.

(** Line 184: [lookahead_time = fall_distance / 100.0]; the divisor is
    not zero. *)
Definition lookahead_time (r : State) : Float64.float :=
  Float64.div (fall_distance (settings r)) (Float64.of_Z 100).

(** The visibility test of line 190, a chained comparison of floats. *)
Definition in_window (r : State) (note : NoteData) : bool :=
  let note_start_time := Float64.of_Q (nd_start_time note) in
  Float64.le (current_time r) note_start_time
  && Float64.le note_start_time
       (Float64.add (current_time r) (lookahead_time r)).

(** Lines 192-195: [time_until_hit] and [y_position]; [None] is the
    [ZeroDivisionError] of the division by [lookahead_time]. *)
Definition y_position (r : State) (note : NoteData) : option Float64.float :=
  let note_start_time := Float64.of_Q (nd_start_time note) in
  let time_until_hit := Float64.sub note_start_time (current_time r) in
  match Float64.truediv time_until_hit (lookahead_time r) with
  | None => None
  | Some ratio =>
      Some (Float64.sub
              (Float64.sub (canvas_height (settings r))
                 (keyboard_height (settings r)))
              (Float64.mul ratio (fall_distance (settings r))))
  end.

(** The loop of [_generate_frame_data]. *)
Fixpoint frame_loop (colors : LearnColors) (r : State) (buf : list NoteData)
  (visible_notes : list VisibleNote) : option (list VisibleNote) :=
  match buf with
  | [] => Some visible_notes
  | note :: rest =>
      if in_window r note then
        match y_position r note with
        | None => None
        | Some y_position =>
            let color := get_learn_color colors (nd_hand note) (nd_note_type note) true in
            match key_info (nd_midi_note note) with
            | Some k =>
                frame_loop colors r rest
                  (visible_notes ++ [{|
                     vn_midi_note := nd_midi_note note;
                     vn_x_position := key_x_position k;
                     vn_y_position := y_position;
                     vn_width := key_width k;
                     vn_height := note_height (settings r);
                     vn_color := color;
                     vn_hand := nd_hand note;
                     vn_velocity := nd_velocity note;
                     vn_is_black_key := key_is_black k |}])
            | None => frame_loop colors r rest visible_notes
            end
        end
      else frame_loop colors r rest visible_notes
  end.

(** [_generate_frame_data] *)
Definition _generate_frame_data (colors : LearnColors) (r : State) : option Frame :=
  match frame_loop colors r (notes_buffer r) [] with
  | Some visible_notes =>
      Some {| frame_notes := visible_notes; frame_piano_keys := piano_keys;
              frame_settings := settings r |}
  | None => None
  end.

(** The Broadcast Sink: every message a client accepted, in order.
    [send_ok] tells which clients' [send] returns; the others raise
    and are discarded from the subscriber set. *)
Definition Sink : Type := list (Z * Message).

(** [_broadcast_to_clients] *)
Definition _broadcast_to_clients (send_ok : Z -> bool) (data : Message)
  (w : State * Sink) : State * Sink :=
  let (r, sink) := w in
  if negb (Py.truthy (websocket_clients r)) then (r, sink)
  else
    let delivered := filter send_ok (websocket_clients r) in
    ({| websocket_clients := delivered; is_active := is_active r;
        animation_thread := animation_thread r; notes_buffer := notes_buffer r;
        current_time := current_time r; start_time := start_time r;
        settings := settings r |},
     sink ++ map (fun c => (c, data)) delivered).

(** [stop_animation].  The [join] returns once the frame loop has seen
    the cleared flag (or after its one-second timeout); it changes no
    field. *)
Definition stop_animation (send_ok : Z -> bool) (w : State * Sink) : State * Sink :=
  let (r, sink) := w in
  let r := {| websocket_clients := websocket_clients r; is_active := false;
              animation_thread := animation_thread r; notes_buffer := [];
              current_time := current_time r; start_time := start_time r;
              settings := settings r |} in
  _broadcast_to_clients send_ok StopMessage (r, sink).

(** [start_animation], called at wall-clock time [now]. *)
Definition start_animation (sg : Song) (now : Float64.float) (r : State)
  : option State :=
  if is_active r || negb (enabled (settings r)) then Some r
  else
    let r := {| websocket_clients := websocket_clients r; is_active := true;
                animation_thread := animation_thread r; notes_buffer := notes_buffer r;
                current_time := Float64.of_Z 0; start_time := now;
                settings := settings r |} in
    match _load_notes_from_midi sg r with
    | Some r =>
        Some {| websocket_clients := websocket_clients r; is_active := is_active r;
                animation_thread := true; notes_buffer := notes_buffer r;
                current_time := current_time r; start_time := start_time r;
                settings := settings r |}
    | None => None
    end.

(** [sync_with_learn_midi] *)
Definition sync_with_learn_midi (current_position : Float64.float) (r : State)
  : State :=
  if is_active r then
    {| websocket_clients := websocket_clients r; is_active := is_active r;
       animation_thread := animation_thread r; notes_buffer := notes_buffer r;
       current_time := current_position; start_time := start_time r;
       settings := settings r |}
  else r.

(** A freshly constructed renderer ([__init__], settings at their
    defaults). *)
Definition init : State := {|
  websocket_clients := []; is_active := false; animation_thread := false;
  notes_buffer := []; current_time := Float64.of_Z 0;
  start_time := Float64.of_Z 0;
  settings := default_settings |}.

(** The events the renderer snapshots, following the specification's
    words ("the Timeline's note-on events"): every note-on of positive
    velocity of a sequence, in order, each with its channel, note and
    velocity and with the events of the sequence up to and including
    it. *)
Fixpoint note_on_events (before events : list Msg)
  : list (Z * Z * Z * list Msg) :=
  match events with
  | [] => []
  | m :: rest =>
      let upto := before ++ [m] in
      match m with
      | NoteOn channel note velocity _ =>
          if (0 <? velocity)%Z
          then (channel, note, velocity, upto) :: note_on_events upto rest
          else note_on_events upto rest
      | _ => note_on_events upto rest
      end
  end.

(** A buffered note is the snapshot of an event when it carries the
    event's channel, note and velocity and the absolute time [seconds]
    gives the events up to it. *)
Definition snapshot_of (seconds : list Msg -> Q) (nd : NoteData)
  (ev : Z * Z * Z * list Msg) : Prop :=
  let '(channel, note, velocity, upto) := ev in
  nd_channel nd = channel
  /\ nd_midi_note nd = note
  /\ nd_velocity nd = velocity
  /\ nd_start_time nd == seconds upto.

(** Following the claim's words: [lookahead_window = fall_distance /
    100] and the closed interval
    [[current_time, current_time + lookahead_window]], the quotient and
    the sum being those of Python's floats; and "has an entry in the
    static keyboard layout". *)
Definition lookahead_window (r : State) : Float64.float :=
  Float64.div (fall_distance (settings r)) (Float64.of_Z 100).

Definition in_closed_interval (lo hi x : Float64.float) : bool :=
  Float64.le lo x && Float64.le x hi.

Definition in_layout (midi_note : Z) : bool :=
  existsb (fun k => (key_midi_note k =? midi_note)%Z) _generate_piano_layout.

Definition appears (r : State) (note : NoteData) : bool :=
  in_closed_interval (current_time r)
    (Float64.add (current_time r) (lookahead_window r))
    (Float64.of_Q (nd_start_time note))
  && in_layout (nd_midi_note note).

(** A frame entry drawn from a buffered note. *)
Definition depicts (r : State) (v : VisibleNote) (note : NoteData) : Prop :=
  vn_midi_note v = nd_midi_note note
  /\ vn_hand v = nd_hand note
  /\ vn_velocity v = nd_velocity note
  /\ y_position r note = Some (vn_y_position v).

(** A running renderer two seconds of whose lookahead start at
    [current_time = 5]: one note at 6.5 s, one at 8 s. *)
Definition note_at (midi_note : Z) (start : Q) : NoteData := {|
  nd_midi_note := midi_note; nd_channel := 1; nd_velocity := 64;
  nd_start_time := start; nd_duration := 1;
  nd_hand := right; nd_note_type := get_note_type midi_note |}.

Definition settings_with (fall_distance : Z) : Settings := {|
  enabled := true; speed := Float64.of_Z 1; note_height := 20;
  keyboard_height := Float64.of_Z 80;
  show_measures := true; animation_smoothness := 60;
  canvas_height := Float64.of_Z 600;
  fall_distance := Float64.of_Z fall_distance |}.

Definition settings_200 : Settings := settings_with 200.

Definition running_at_5 : State := {|
  websocket_clients := [7%Z]; is_active := true; animation_thread := true;
  notes_buffer := [note_at 60 (13 # 2); note_at 62 8];
  current_time := Float64.of_Z 5; start_time := Float64.of_Z 0;
  settings := settings_200 |}.

(** A renderer at [current_time = 0.7] with a tenth of a second of
    lookahead and one note at 0.8 s: the float sum of 0.7 and 0.1 is
    the float just below 0.8. *)
Definition at_window_end : State := {|
  websocket_clients := [7%Z]; is_active := true; animation_thread := true;
  notes_buffer := [note_at 60 (4 # 5)];
  current_time := Float64.of_Q (7 # 10); start_time := Float64.of_Z 0;
  settings := settings_with 10 |}.

(** [add_websocket_client]: [set.add]. *)
Definition add_websocket_client (client : Z) (r : State) : State :=
  if Py.mem client (websocket_clients r) then r
  else {| websocket_clients := websocket_clients r ++ [client];
          is_active := is_active r; animation_thread := animation_thread r;
          notes_buffer := notes_buffer r; current_time := current_time r;
          start_time := start_time r; settings := settings r |}.

(** [remove_websocket_client]: [set.discard], no error for a stranger. *)
Definition remove_websocket_client (client : Z) (r : State) : State := {|
  websocket_clients :=
    filter (fun c => negb (c =? client)%Z) (websocket_clients r);
  is_active := is_active r; animation_thread := animation_thread r;
  notes_buffer := notes_buffer r; current_time := current_time r;
  start_time := start_time r; settings := settings r |}.

(** One turn of the [while self.is_active] loop of [_animation_loop],
    entered at wall-clock time [now]; [None] when the frame cannot be
    computed (nothing catches the exception: the thread ends). *)
Definition animation_tick (colors : LearnColors) (send_ok : Z -> bool)
  (now : Float64.float) (w : State * Sink) : option (State * Sink) :=
  let (r, sink) := w in
  if is_active r then
    let r := {| websocket_clients := websocket_clients r; is_active := is_active r;
                animation_thread := animation_thread r;
                notes_buffer := notes_buffer r;
                current_time :=
                  Float64.mul (Float64.sub now (start_time r))
                    (speed (settings r));
                start_time := start_time r; settings := settings r |} in
    match _generate_frame_data colors r with
    | Some frame_data =>
        Some (_broadcast_to_clients send_ok
                (FrameUpdate frame_data (current_time r)) (r, sink))
    | None => None
    end
  else Some (r, sink).

(** The argument of [update_settings]: a dictionary with some of the
    keys of [self.settings]. *)
Record Patch : Type := {
  p_enabled : option bool;
  p_speed : option Float64.float;
  p_note_height : option Z;
  p_keyboard_height : option Float64.float;
  p_show_measures : option bool;
  p_animation_smoothness : option Z;
  p_canvas_height : option Float64.float;
  p_fall_distance : option Float64.float
}.

Definition or_old {A : Type} (new : option A) (old : A) : A :=
  match new with Some v => v | None => old end.

(** [self.settings.update(new_settings)] *)
Definition apply_patch (p : Patch) (st : Settings) : Settings := {|
  enabled := or_old (p_enabled p) (enabled st);
  speed := or_old (p_speed p) (speed st);
  note_height := or_old (p_note_height p) (note_height st);
  keyboard_height := or_old (p_keyboard_height p) (keyboard_height st);
  show_measures := or_old (p_show_measures p) (show_measures st);
  animation_smoothness :=
    or_old (p_animation_smoothness p) (animation_smoothness st);
  canvas_height := or_old (p_canvas_height p) (canvas_height st);
  fall_distance := or_old (p_fall_distance p) (fall_distance st) |}.

(** [update_settings], called at wall-clock time [now]; the writes to
    the settings store are left out. *)
Definition update_settings (sg : Song) (send_ok : Z -> bool)
  (now : Float64.float) (p : Patch) (w : State * Sink)
  : option (State * Sink) :=
  let (r, sink) := w in
  let r := {| websocket_clients := websocket_clients r; is_active := is_active r;
              animation_thread := animation_thread r;
              notes_buffer := notes_buffer r; current_time := current_time r;
              start_time := start_time r;
              settings := apply_patch p (settings r) |} in
  if is_active r then
    let (r, sink) := stop_animation send_ok (r, sink) in
    if enabled (settings r) then
      match start_animation sg now r with
      | Some r => Some (r, sink)
      | None => None
      end
    else Some (r, sink)
  else Some (r, sink).

(** Every note-on of a message list as [_load_notes_from_midi] would
    buffer it, had the buffer no bound. *)
Fixpoint note_ons (sg : Song) (msgs : list Msg) (current_time : Z) : list NoteData :=
  match msgs with
  | [] => []
  | msg :: rest =>
      if is_meta msg then note_ons sg rest current_time
      else
        let current_time := (current_time + msg_time msg)%Z in
        match msg with
        | NoteOn channel note velocity _ =>
            if (0 <? velocity)%Z then
              {| nd_midi_note := note; nd_channel := channel;
                 nd_velocity := velocity;
                 nd_start_time :=
                   inject_Z (current_time * song_tempo sg)
                   / inject_Z (ticks_per_beat sg * 1000000);
                 nd_duration := 1;
                 nd_hand := if (channel =? 1)%Z then right else left;
                 nd_note_type := get_note_type note |}
              :: note_ons sg rest current_time
            else note_ons sg rest current_time
        | _ => note_ons sg rest current_time
        end
  end.

(** The last [n] elements of a list. *)
Definition last_n {A : Type} (n : nat) (l : list A) : list A :=
  skipn (length l - n) l.

(** The calls that reach a renderer: from the web interface, from
    the practice loop and from its own animation thread. *)
Inductive Op : Type :=
| AddClient (client : Z)
| RemoveClient (client : Z)
| Start (now : Float64.float)
| Stop
| Tick (now : Float64.float)
| Sync (current_position : Float64.float)
| Update (now : Float64.float) (new_settings : Patch).

Definition apply_op (sg : Song) (colors : LearnColors) (send_ok : Z -> bool)
  (op : Op) (w : State * Sink) : option (State * Sink) :=
  match op with
  | AddClient client => Some (add_websocket_client client (fst w), snd w)
  | RemoveClient client => Some (remove_websocket_client client (fst w), snd w)
  | Start now =>
      match start_animation sg now (fst w) with
      | Some r => Some (r, snd w)
      | None => None
      end
  | Stop => Some (stop_animation send_ok w)
  | Tick now => animation_tick colors send_ok now w
  | Sync current_position =>
      Some (sync_with_learn_midi current_position (fst w), snd w)
  | Update now new_settings => update_settings sg send_ok now new_settings w
  end.

(** A sequence of calls, ended by the first one that raises. *)
Fixpoint run_ops (sg : Song) (colors : LearnColors) (send_ok : Z -> bool)
  (ops : list Op) (w : State * Sink) : option (State * Sink) :=
  match ops with
  | [] => Some w
  | op :: rest =>
      match apply_op sg colors send_ok op w with
      | Some w => run_ops sg colors send_ok rest w
      | None => None
      end
  end.

(** The renderer as [__init__] leaves it, [_load_settings] having
    read [st] from the configuration. *)
Definition constructed (st : Settings) : State := {|
  websocket_clients := []; is_active := false; animation_thread := false;
  notes_buffer := []; current_time := Float64.of_Z 0;
  start_time := Float64.of_Z 0; settings := st |}.

(** What holds of a renderer between calls. *)
Definition consistent (r : State) : Prop :=
  (length (notes_buffer r) <= 1000)%nat
  /\ (is_active r = true -> enabled (settings r) = true)
  /\ (is_active r = true -> animation_thread r = true)
  /\ (is_active r = false -> notes_buffer r = []).

(** The clients an operation sequence subscribes. *)
Fixpoint subscribed (ops : list Op) : list Z :=
  match ops with
  | [] => []
  | AddClient client :: rest => client :: subscribed rest
  | _ :: rest => subscribed rest
  end.

(** A session: a client subscribes, the animation is started, draws a
    frame, is synchronised, has its speed changed and is stopped. *)
Definition faster : Patch := {|
  p_enabled := None; p_speed := Some (Float64.of_Z 2); p_note_height := None;
  p_keyboard_height := None; p_show_measures := None;
  p_animation_smoothness := None; p_canvas_height := None;
  p_fall_distance := None |}.

Definition demo_calls : list Op :=
  [AddClient 7; Start (Float64.of_Z 0); Tick (Float64.of_Z 1);
   Sync (Float64.of_Z 3); Update (Float64.of_Z 2) faster; Stop].

End Renderer.

(** ** Practice engine: [LearnMIDI.learn_midi]

  The thread that runs [learn_midi] is a step function between three
  control points: the top of the [while keep_looping] loop, the head of
  the [for] loop, and the condition of the gate-wait [while].  A step
  runs the code from one point to the next.  The shared attributes are
  read where the code reads them ([is_started_midi] at the [for] head
  and in the gate condition, [awaiting_restart_loop] in the gate loop
  and at the end of the body, the queue in the drain), so what the
  other threads do can be placed between steps.  The clock moves by
  the sleeps and by explicit [Elapse] actions; computing takes no
  time. *)

Module Engine.

Local Open Scope Q_scope.

(** The attributes [learn_midi] reads and never writes.  They are
    fixed for the length of a run. *)
Record Settings : Type := {
  practice : Z;            (* 0 Melody, 1 Rhythm, 2 Listen *)
  hands : Z;               (* 0 Both, 1 Right, 2 Left *)
  mute_hand : Z;           (* 0 Off, 1 Right, 2 Left *)
  start_point : Q;
  end_point : Q;
  set_tempo : Z;
  show_wrong_notes : Z;
  is_loop_active : Z;
  number_of_mistakes : Z;
  notes_time : list Q;
  song : Song
}.

(** Where the thread running [learn_midi] stands. *)
Inductive Pc : Type :=
| AtLoopTop                           (* line 454, [while keep_looping] *)
| AtForHead                           (* line 470, next message of the slice *)
| InGate (msg : Msg) (tDelay : Q)     (* line 498, the gate-wait loop *)
| Returned.                           (* [learn_midi] has returned *)

(** The configuration: the attributes the run writes, the locals of
    [learn_midi], and the world it shares with the other threads. *)
Record State : Type := {
  (* attributes *)
  is_started_midi : bool;
  awaiting_restart_loop : bool;
  current_idx : Z;
  mistakes_count : Z;
  pending_software_notes : list Msg;
  next_note_time : option Q;
  next_note_delay : option Q;
  socket_send : list Q;
  (* locals *)
  pc : Pc;
  notes_to_press : list Z;
  notes_pressed : list Z;
  absolute_idx : Z;
  time_prev : Q;
  remaining : list Msg;    (* what the [for] iterator has not yielded yet *)
  (* world *)
  now : Q;                        (* [time.time()] *)
  midi_queue : list (Msg * Q);    (* [midiports.midi_queue], left end first *)
  playport : list Msg             (* everything given to [playport.send] *)
}.

Definition set_is_started_midi (v : bool) (e : State) : State := {|
  is_started_midi := v; awaiting_restart_loop := awaiting_restart_loop e;
  current_idx := current_idx e; mistakes_count := mistakes_count e;
  pending_software_notes := pending_software_notes e;
  next_note_time := next_note_time e; next_note_delay := next_note_delay e;
  socket_send := socket_send e; pc := pc e; notes_to_press := notes_to_press e;
  notes_pressed := notes_pressed e; absolute_idx := absolute_idx e;
  time_prev := time_prev e; remaining := remaining e; now := now e;
  midi_queue := midi_queue e; playport := playport e |}.

Definition set_awaiting_restart_loop (v : bool) (e : State) : State := {|
  is_started_midi := is_started_midi e; awaiting_restart_loop := v;
  current_idx := current_idx e; mistakes_count := mistakes_count e;
  pending_software_notes := pending_software_notes e;
  next_note_time := next_note_time e; next_note_delay := next_note_delay e;
  socket_send := socket_send e; pc := pc e; notes_to_press := notes_to_press e;
  notes_pressed := notes_pressed e; absolute_idx := absolute_idx e;
  time_prev := time_prev e; remaining := remaining e; now := now e;
  midi_queue := midi_queue e; playport := playport e |}.

Definition set_current_idx (v : Z) (e : State) : State := {|
  is_started_midi := is_started_midi e; awaiting_restart_loop := awaiting_restart_loop e;
  current_idx := v; mistakes_count := mistakes_count e;
  pending_software_notes := pending_software_notes e;
  next_note_time := next_note_time e; next_note_delay := next_note_delay e;
  socket_send := socket_send e; pc := pc e; notes_to_press := notes_to_press e;
  notes_pressed := notes_pressed e; absolute_idx := absolute_idx e;
  time_prev := time_prev e; remaining := remaining e; now := now e;
  midi_queue := midi_queue e; playport := playport e |}.

Definition set_mistakes_count (v : Z) (e : State) : State := {|
  is_started_midi := is_started_midi e; awaiting_restart_loop := awaiting_restart_loop e;
  current_idx := current_idx e; mistakes_count := v;
  pending_software_notes := pending_software_notes e;
  next_note_time := next_note_time e; next_note_delay := next_note_delay e;
  socket_send := socket_send e; pc := pc e; notes_to_press := notes_to_press e;
  notes_pressed := notes_pressed e; absolute_idx := absolute_idx e;
  time_prev := time_prev e; remaining := remaining e; now := now e;
  midi_queue := midi_queue e; playport := playport e |}.

Definition set_pending_software_notes (v : list Msg) (e : State) : State := {|
  is_started_midi := is_started_midi e; awaiting_restart_loop := awaiting_restart_loop e;
  current_idx := current_idx e; mistakes_count := mistakes_count e;
  pending_software_notes := v;
  next_note_time := next_note_time e; next_note_delay := next_note_delay e;
  socket_send := socket_send e; pc := pc e; notes_to_press := notes_to_press e;
  notes_pressed := notes_pressed e; absolute_idx := absolute_idx e;
  time_prev := time_prev e; remaining := remaining e; now := now e;
  midi_queue := midi_queue e; playport := playport e |}.

Definition set_next_note (t d : option Q) (e : State) : State := {|
  is_started_midi := is_started_midi e; awaiting_restart_loop := awaiting_restart_loop e;
  current_idx := current_idx e; mistakes_count := mistakes_count e;
  pending_software_notes := pending_software_notes e;
  next_note_time := t; next_note_delay := d;
  socket_send := socket_send e; pc := pc e; notes_to_press := notes_to_press e;
  notes_pressed := notes_pressed e; absolute_idx := absolute_idx e;
  time_prev := time_prev e; remaining := remaining e; now := now e;
  midi_queue := midi_queue e; playport := playport e |}.

Definition set_socket_send (v : list Q) (e : State) : State := {|
  is_started_midi := is_started_midi e; awaiting_restart_loop := awaiting_restart_loop e;
  current_idx := current_idx e; mistakes_count := mistakes_count e;
  pending_software_notes := pending_software_notes e;
  next_note_time := next_note_time e; next_note_delay := next_note_delay e;
  socket_send := v; pc := pc e; notes_to_press := notes_to_press e;
  notes_pressed := notes_pressed e; absolute_idx := absolute_idx e;
  time_prev := time_prev e; remaining := remaining e; now := now e;
  midi_queue := midi_queue e; playport := playport e |}.

Definition set_pc (v : Pc) (e : State) : State := {|
  is_started_midi := is_started_midi e; awaiting_restart_loop := awaiting_restart_loop e;
  current_idx := current_idx e; mistakes_count := mistakes_count e;
  pending_software_notes := pending_software_notes e;
  next_note_time := next_note_time e; next_note_delay := next_note_delay e;
  socket_send := socket_send e; pc := v; notes_to_press := notes_to_press e;
  notes_pressed := notes_pressed e; absolute_idx := absolute_idx e;
  time_prev := time_prev e; remaining := remaining e; now := now e;
  midi_queue := midi_queue e; playport := playport e |}.

Definition set_notes_to_press (v : list Z) (e : State) : State := {|
  is_started_midi := is_started_midi e; awaiting_restart_loop := awaiting_restart_loop e;
  current_idx := current_idx e; mistakes_count := mistakes_count e;
  pending_software_notes := pending_software_notes e;
  next_note_time := next_note_time e; next_note_delay := next_note_delay e;
  socket_send := socket_send e; pc := pc e; notes_to_press := v;
  notes_pressed := notes_pressed e; absolute_idx := absolute_idx e;
  time_prev := time_prev e; remaining := remaining e; now := now e;
  midi_queue := midi_queue e; playport := playport e |}.

Definition set_notes_pressed (v : list Z) (e : State) : State := {|
  is_started_midi := is_started_midi e; awaiting_restart_loop := awaiting_restart_loop e;
  current_idx := current_idx e; mistakes_count := mistakes_count e;
  pending_software_notes := pending_software_notes e;
  next_note_time := next_note_time e; next_note_delay := next_note_delay e;
  socket_send := socket_send e; pc := pc e; notes_to_press := notes_to_press e;
  notes_pressed := v; absolute_idx := absolute_idx e;
  time_prev := time_prev e; remaining := remaining e; now := now e;
  midi_queue := midi_queue e; playport := playport e |}.

Definition set_absolute_idx (v : Z) (e : State) : State := {|
  is_started_midi := is_started_midi e; awaiting_restart_loop := awaiting_restart_loop e;
  current_idx := current_idx e; mistakes_count := mistakes_count e;
  pending_software_notes := pending_software_notes e;
  next_note_time := next_note_time e; next_note_delay := next_note_delay e;
  socket_send := socket_send e; pc := pc e; notes_to_press := notes_to_press e;
  notes_pressed := notes_pressed e; absolute_idx := v;
  time_prev := time_prev e; remaining := remaining e; now := now e;
  midi_queue := midi_queue e; playport := playport e |}.

Definition set_time_prev (v : Q) (e : State) : State := {|
  is_started_midi := is_started_midi e; awaiting_restart_loop := awaiting_restart_loop e;
  current_idx := current_idx e; mistakes_count := mistakes_count e;
  pending_software_notes := pending_software_notes e;
  next_note_time := next_note_time e; next_note_delay := next_note_delay e;
  socket_send := socket_send e; pc := pc e; notes_to_press := notes_to_press e;
  notes_pressed := notes_pressed e; absolute_idx := absolute_idx e;
  time_prev := v; remaining := remaining e; now := now e;
  midi_queue := midi_queue e; playport := playport e |}.

Definition set_remaining (v : list Msg) (e : State) : State := {|
  is_started_midi := is_started_midi e; awaiting_restart_loop := awaiting_restart_loop e;
  current_idx := current_idx e; mistakes_count := mistakes_count e;
  pending_software_notes := pending_software_notes e;
  next_note_time := next_note_time e; next_note_delay := next_note_delay e;
  socket_send := socket_send e; pc := pc e; notes_to_press := notes_to_press e;
  notes_pressed := notes_pressed e; absolute_idx := absolute_idx e;
  time_prev := time_prev e; remaining := v; now := now e;
  midi_queue := midi_queue e; playport := playport e |}.

Definition set_now (v : Q) (e : State) : State := {|
  is_started_midi := is_started_midi e; awaiting_restart_loop := awaiting_restart_loop e;
  current_idx := current_idx e; mistakes_count := mistakes_count e;
  pending_software_notes := pending_software_notes e;
  next_note_time := next_note_time e; next_note_delay := next_note_delay e;
  socket_send := socket_send e; pc := pc e; notes_to_press := notes_to_press e;
  notes_pressed := notes_pressed e; absolute_idx := absolute_idx e;
  time_prev := time_prev e; remaining := remaining e; now := v;
  midi_queue := midi_queue e; playport := playport e |}.

Definition set_midi_queue (v : list (Msg * Q)) (e : State) : State := {|
  is_started_midi := is_started_midi e; awaiting_restart_loop := awaiting_restart_loop e;
  current_idx := current_idx e; mistakes_count := mistakes_count e;
  pending_software_notes := pending_software_notes e;
  next_note_time := next_note_time e; next_note_delay := next_note_delay e;
  socket_send := socket_send e; pc := pc e; notes_to_press := notes_to_press e;
  notes_pressed := notes_pressed e; absolute_idx := absolute_idx e;
  time_prev := time_prev e; remaining := remaining e; now := now e;
  midi_queue := v; playport := playport e |}.

Definition set_playport (v : list Msg) (e : State) : State := {|
  is_started_midi := is_started_midi e; awaiting_restart_loop := awaiting_restart_loop e;
  current_idx := current_idx e; mistakes_count := mistakes_count e;
  pending_software_notes := pending_software_notes e;
  next_note_time := next_note_time e; next_note_delay := next_note_delay e;
  socket_send := socket_send e; pc := pc e; notes_to_press := notes_to_press e;
  notes_pressed := notes_pressed e; absolute_idx := absolute_idx e;
  time_prev := time_prev e; remaining := remaining e; now := now e;
  midi_queue := midi_queue e; playport := v |}.

(** Slice bounds, lines 461-462. *)
Definition start_idx (s : Settings) : Z :=
  Py.int (start_point s * inject_Z (Z.of_nat (length (song_tracks (song s)))) / 100).

Definition end_idx (s : Settings) : Z :=
  Py.int (end_point s * inject_Z (Z.of_nat (length (song_tracks (song s)))) / 100).

(** [restart_loop] *)
Definition restart_loop (e : State) : State := set_awaiting_restart_loop true e.

(** Lines 506-511 and 397-402 read note and velocity back out of
    [str(msg)]: the note is the message's, the velocity is 0 for a
    [note_off] and the message's otherwise. *)
Definition input_note (m : Msg) : Z :=
  match m with NoteOn _ n _ _ | NoteOff _ n _ _ => n | _ => 0%Z end.

Definition input_velocity (m : Msg) : Z :=
  match m with NoteOn _ _ v _ => v | _ => 0%Z end.

(** The [for msg in wrong_notes] loop of [handle_wrong_notes], as far
    as it touches [mistakes_count]. *)
Fixpoint count_wrong (wrong_notes : list Msg) (mistakes_count : Z) : Z :=
  match wrong_notes with
  | [] => mistakes_count
  | msg :: rest =>
      if (0 <? input_velocity msg)%Z then count_wrong rest (mistakes_count + 1)%Z
      else count_wrong rest mistakes_count
  end.

(** [handle_wrong_notes] *)
Definition handle_wrong_notes (s : Settings) (wrong_notes : list Msg) (e : State)
  : State :=
  if negb (show_wrong_notes s =? 1)%Z then e
  else
    let e := set_mistakes_count (count_wrong wrong_notes (mistakes_count e)) e in
    if (number_of_mistakes s <? mistakes_count e)%Z && (0 <? number_of_mistakes s)%Z
    then restart_loop (set_mistakes_count 0%Z e)
    else e.

(** Lines 501-528: [while self.midiports.midi_queue: ... popleft()].
    The three lists the loop updates are threaded through. *)
Fixpoint drain (notes_to_press : list Z) (queue : list (Msg * Q))
  (notes_pressed : list Z) (wrong_notes pending : list Msg)
  : list Z * list Msg * list Msg :=
  match queue with
  | [] => (notes_pressed, wrong_notes, pending)
  | (msg_in, _) :: queue =>
      if negb (is_note_msg msg_in) then
        drain notes_to_press queue notes_pressed wrong_notes pending
      else
        let note := input_note msg_in in
        let velocity := input_velocity msg_in in
        if negb (Py.mem note notes_to_press) then
          drain notes_to_press queue notes_pressed (wrong_notes ++ [msg_in])
            (if (0 <? velocity)%Z then [] else pending)
        else if (0 <? velocity)%Z then
          drain notes_to_press queue
            (if Py.mem note notes_pressed then notes_pressed
             else notes_pressed ++ [note])
            wrong_notes pending
        else
          drain notes_to_press queue (Py.remove note notes_pressed)
            wrong_notes pending
  end.

(** Line 637, after the [for] loop has ended. *)
Definition loop_tail (s : Settings) (e : State) : State :=
  if (is_loop_active s =? 0)%Z || negb (is_started_midi e) then set_pc Returned e
  else set_pc AtLoopTop e.

(** Lines 633-635, the [except] clause of the loop body. *)
Definition on_exception (s : Settings) (e : State) : State :=
  loop_tail s (set_is_started_midi false e).

(** Short-circuit [and] / [or] whose right operand may raise. *)
Definition py_and (a : bool) (b : option bool) : option bool :=
  if a then b else Some false.

Definition py_or (a b : option bool) : option bool :=
  match a with
  | Some true => Some true
  | Some false => b
  | None => None
  end.

Definition channel_is (msg : Msg) (c : Z) : option bool :=
  match msg_channel msg with
  | Some x => Some (x =? c)%Z
  | None => None
  end.

(** The condition of lines 597-603. *)
Definition is_software (s : Settings) (msg : Msg) : option bool :=
  py_or (py_and ((hands s =? 1)%Z && negb (mute_hand s =? 2)%Z) (channel_is msg 2%Z))
    (py_or (py_and ((hands s =? 2)%Z && negb (mute_hand s =? 1)%Z) (channel_is msg 1%Z))
       (Some (practice s =? 2)%Z)).

(** The condition of lines 592-593. *)
Definition is_note_to_press (s : Settings) (msg : Msg) : bool :=
  match msg with
  | NoteOn channel _ velocity _ =>
      (0 <? velocity)%Z && ((channel =? hands s)%Z || (hands s =? 0)%Z)
  | _ => false
  end.

Definition send (msg : Msg) (e : State) : State :=
  set_playport (playport e ++ [msg]) e.

(** Lines 604-614. *)
Definition route_software (s : Settings) (msg : Msg) (e : State) : State :=
  if (practice s =? 2)%Z then send msg e
  else if Py.truthy (notes_to_press e) then
    set_pending_software_notes (pending_software_notes e ++ [msg]) e
  else send msg e.

(** Lines 557-614, the [if not msg.is_meta] block after the sleep.  The
    flag is [false] when the channel test raised. *)
Definition note_stage (s : Settings) (msg : Msg) (e : State) : State * bool :=
  if is_meta msg then (e, true)
  else
    let e :=
      if is_note_to_press s msg
      then set_notes_to_press (notes_to_press e ++ [input_note msg]) e
      else e in
    match is_software s msg with
    | None => (e, false)
    | Some true => (route_software s msg e, true)
    | Some false => (e, true)
    end.

(** Truthiness of [self.next_note_time] together with the deadline
    test [time.time() >= self.next_note_time]. *)
Definition deadline_passed (e : State) : bool :=
  match next_note_time e with
  | Some t => negb (Qeq_bool t 0) && Qle_bool t (now e)
  | None => false
  end.

(** Lines 620-626. *)
Definition escape_valve (e : State) : State :=
  if Py.truthy (pending_software_notes e)
     && negb (Py.truthy (notes_to_press e))
     && deadline_passed e
  then
    set_next_note None None
      (set_pending_software_notes []
         (set_playport (playport e ++ pending_software_notes e) e))
  else e.

(** [max(0, x)] *)
Definition max0 (x : Q) : Q := if Qle_bool x 0 then 0 else x.

(** Lines 550-630: the rest of one iteration of the [for] body, from
    the pacing sleep to the restart check. *)
Definition finish_iteration (s : Settings) (msg : Msg) (tDelay : Q) (e : State)
  : State :=
  let delay := max0 (tDelay - (now e - time_prev e) - (3 # 1000)) in
  let e := set_now (now e + delay) e in
  let e := set_time_prev (now e) e in
  let (e, ok) := note_stage s msg e in
  if negb ok then on_exception s e
  else
    let e := set_absolute_idx (absolute_idx e + 1)%Z e in
    let e := escape_valve e in
    if awaiting_restart_loop e
    then loop_tail s (set_awaiting_restart_loop false e)
    else set_pc AtForHead e.




(** Lines 537-548, after the gate-wait loop. *)
Definition leave_gate (e : State) : State :=
  let e :=
    if Py.issubset (notes_to_press e) (notes_pressed e)
       && Py.truthy (pending_software_notes e)
    then set_pending_software_notes []
           (set_playport (playport e ++ pending_software_notes e) e)
    else e in
  set_notes_to_press [] e.

(** One evaluation of the [while] condition of line 498 and, when it
    holds, one pass through the loop body (lines 499-535). *)
Definition gate_poll (s : Settings) (msg : Msg) (tDelay : Q) (e : State) : State :=
  if negb (Py.issubset (notes_to_press e) (notes_pressed e)) && is_started_midi e
  then
    if awaiting_restart_loop e
    then finish_iteration s msg tDelay (leave_gate e)
    else
      let '(notes_pressed, wrong_notes, pending) :=
        drain (notes_to_press e) (midi_queue e) (notes_pressed e) []
          (pending_software_notes e) in
      let e := set_midi_queue [] e in
      let e := set_notes_pressed notes_pressed e in
      let e := set_pending_software_notes pending e in
      handle_wrong_notes s wrong_notes e
  else finish_iteration s msg tDelay (leave_gate e).

(** Lines 481-486: the [try] around [socket_send.append] and the
    increment of [current_idx]. *)
Definition count_note (s : Settings) (e : State) : State :=
  let e :=
    match Py.index (notes_time s) (current_idx e) with
    | Some t => set_socket_send (socket_send e ++ [t]) e
    | None => e
    end in
  set_current_idx (current_idx e + 1)%Z e.

(** The gate condition of lines 488-489. *)
Definition opens_gate (s : Settings) (msg : Msg) (tDelay : Q) (e : State) : bool :=
  negb (Qle_bool tDelay 0) && is_note_msg msg
  && Py.truthy (notes_to_press e) && (practice s =? 0)%Z.

(** Lines 470-496: the [for] loop yields the next message and the body
    runs up to the gate, or to the end of the body when there is none. *)
Definition for_head (s : Settings) (e : State) : State :=
  match remaining e with
  | [] => loop_tail s e
  | msg :: rest =>
      let e := set_remaining rest e in
      if negb (is_started_midi e) then loop_tail s e
      else
        match Timeline.tDelay (song_tempo (song s)) (set_tempo s)
                (ticks_per_beat (song s)) msg with
        | None => on_exception s e
        | Some tDelay =>
            if is_meta msg then finish_iteration s msg tDelay e
            else
              let e := count_note s e in
              if opens_gate s msg tDelay e then
                let e := set_notes_pressed [] e in
                let e := set_next_note (Some (now e + tDelay)) (Some tDelay) e in
                set_pc (InGate msg tDelay) e
              else finish_iteration s msg tDelay e
        end
  end.

(** Lines 455-468: the one-second sleep and the set-up of a pass over
    the slice. *)
Definition loop_top (s : Settings) (e : State) : State :=
  let e := set_now (now e + 1) e in
  let e := set_time_prev (now e) e in
  let e := set_notes_to_press [] e in
  let e := set_current_idx (start_idx s) e in
  let e := set_absolute_idx (start_idx s) e in
  let e := set_remaining (Py.slice (song_tracks (song s)) (start_idx s) (end_idx s)) e in
  set_pc AtForHead e.

(** One step of the thread that runs [learn_midi]. *)
Definition step (s : Settings) (e : State) : State :=
  match pc e with
  | AtLoopTop => loop_top s e
  | AtForHead => for_head s e
  | InGate msg tDelay => gate_poll s msg tDelay e
  | Returned => e
  end.

(** What happens between two steps of that thread. *)
Inductive Action : Type :=
| Run                               (* the engine thread takes a step *)
| KeyEvent (msg : Msg) (stamp : Q)  (* the input thread queues an event *)
| RestartLoop                       (* another thread calls [restart_loop] *)
| StopLearning                      (* another thread clears [is_started_midi] *)
| Elapse (d : Q).                   (* wall-clock time passes *)

Definition act (s : Settings) (a : Action) (e : State) : State :=
  match a with
  | Run => step s e
  | KeyEvent msg stamp => set_midi_queue (midi_queue e ++ [(msg, stamp)]) e
  | RestartLoop => restart_loop e
  | StopLearning => set_is_started_midi false e
  | Elapse d => if Qle_bool 0 d then set_now (now e + d) e else e
  end.

Fixpoint exec (s : Settings) (acts : list Action) (e : State) : State :=
  match acts with
  | [] => e
  | a :: rest => exec s rest (act s a e)
  end.

(** The configuration in which [learn_midi] reaches line 453 at
    wall-clock time [t0], the preliminary checks passed. *)
Definition started (t0 : Q) : State := {|
  is_started_midi := true; awaiting_restart_loop := false;
  current_idx := 0; mistakes_count := 0;
  pending_software_notes := []; next_note_time := None; next_note_delay := None;
  socket_send := []; pc := AtLoopTop;
  notes_to_press := []; notes_pressed := []; absolute_idx := 0;
  time_prev := t0; remaining := []; now := t0;
  midi_queue := []; playport := [] |}.

(** The same point reached on an object that has run before.  No line
    of [learn_midi] resets the attributes: they are as the last run
    left them, and so is the input queue; the locals are fresh, and
    the log of what is sent starts anew. *)
Definition restarted (t0 : Q) (last : State) : State := {|
  is_started_midi := true; awaiting_restart_loop := awaiting_restart_loop last;
  current_idx := current_idx last; mistakes_count := mistakes_count last;
  pending_software_notes := pending_software_notes last;
  next_note_time := next_note_time last; next_note_delay := next_note_delay last;
  socket_send := socket_send last; pc := AtLoopTop;
  notes_to_press := []; notes_pressed := []; absolute_idx := 0;
  time_prev := t0; remaining := []; now := t0;
  midi_queue := midi_queue last; playport := [] |}.

(** The gate-wait seen from outside: before each poll of the engine a
    batch of key events has been queued; polling stops with the gate. *)
Fixpoint gate_wait (s : Settings) (batches : list (list (Msg * Q))) (e : State)
  : State :=
  match batches with
  | [] => e
  | batch :: rest =>
      match pc e with
      | InGate _ _ =>
          gate_wait s rest (step s (set_midi_queue (midi_queue e ++ batch) e))
      | _ => e
      end
  end.

(** Following the specification's words: the expected notes that are
    held after a sequence of input events, "note-ons with velocity > 0,
    minus subsequent note-offs".  [held] is the verdict for one note. *)
Fixpoint held (note : Z) (events : list (Msg * Q)) (before : bool) : bool :=
  match events with
  | [] => before
  | (msg, _) :: rest =>
      if is_note_msg msg && (input_note msg =? note)%Z
      then held note rest (0 <? input_velocity msg)%Z
      else held note rest before
  end.

Definition gate_satisfied (notes_to_press : list Z) (events : list (Msg * Q)) : bool :=
  forallb (fun n => held n events false) notes_to_press.

(** A two-hand fragment practised with the right hand: a chord of the
    right hand (60, 64), a left-hand note the software plays (48), then
    the releases half a second later. *)
Definition demo_song : Song := {|
  song_tracks := [NoteOn 1 60 64 0; NoteOn 1 64 64 0; NoteOn 2 48 64 0;
                  NoteOff 1 60 0 480; NoteOff 1 64 0 0; NoteOff 2 48 0 0];
  song_tempo := 500000;
  ticks_per_beat := 480 |}.

Definition demo_settings (loop wrong : Z) : Settings := {|
  practice := 0; hands := 1; mute_hand := 0;
  start_point := 0; end_point := 100; set_tempo := 100;
  show_wrong_notes := wrong; is_loop_active := loop; number_of_mistakes := 3;
  notes_time := [0; 0; 0; 1 # 2; 1 # 2; 1 # 2];
  song := demo_song |}.

(** The run up to the first gate: set-up, three messages, and the
    fourth one opens the gate on [60; 64]. *)
Definition to_first_gate : list Action := [Run; Run; Run; Run; Run].

(** An input event the drain classifies as wrong (line 514), and the
    number of wrong note-ons with velocity above 0 in a queue. *)
Definition is_wrong (notes_to_press : list Z) (ev : Msg * Q) : bool :=
  is_note_msg (fst ev) && negb (Py.mem (input_note (fst ev)) notes_to_press).

Definition is_wrong_on (notes_to_press : list Z) (ev : Msg * Q) : bool :=
  is_wrong notes_to_press ev && (0 <? input_velocity (fst ev))%Z.

Definition wrong_ons (notes_to_press : list Z) (queue : list (Msg * Q)) : Z :=
  Z.of_nat (length (filter (is_wrong_on notes_to_press) queue)).

(** The first component of [drain]: the pressed list alone. *)
Definition drain_pressed (notes_to_press : list Z) (queue : list (Msg * Q))
  (notes_pressed : list Z) : list Z :=
  fst (fst (drain notes_to_press queue notes_pressed [] [])).

(** The threshold test of line 425 applied to a tally of mistakes. *)
Definition after_threshold (s : Settings) (tally : Z) : Z :=
  if (number_of_mistakes s <? tally)%Z && (0 <? number_of_mistakes s)%Z
  then 0%Z else tally.

(** An input note-on that presses a key. *)
Definition note_on_event (ev : Msg * Q) : bool :=
  match fst ev with
  | NoteOn _ _ velocity _ => (0 <? velocity)%Z
  | _ => false
  end.

(** The engine waiting at the first gate of the demo song, and that
    gate's message and delay. *)
Definition at_first_gate (loop wrong : Z) : State :=
  exec (demo_settings loop wrong) to_first_gate (started 0).

Definition demo_delay : Q :=
  Eval vm_compute in
    match pc (at_first_gate 1 1) with InGate _ d => d | _ => 0 end.

(** Key events for the first gate: 64 first, then 60, then silence. *)
Definition chord_batches : list (list (Msg * Q)) :=
  [[(NoteOn 0 64 80 0, 0)]; [(NoteOn 0 60 70 0, 0)]; []].

(** A key that is not part of the first gate's chord. *)
Definition wrong_key : Msg := NoteOn 0 67 80 0.

(** Three wrong keys polled at the first gate, a fourth one queued. *)
Definition three_mistakes (loop : Z) : State :=
  exec (demo_settings loop 1)
    [KeyEvent wrong_key 0; KeyEvent wrong_key 0; KeyEvent wrong_key 0; Run;
     KeyEvent wrong_key 0]
    (at_first_gate loop 1).


(** Messages of a list that are not meta messages: what [current_idx]
    counts (comment of lines 464-465). *)
Definition count_non_meta (msgs : list Msg) : Z :=
  Z.of_nat (length (filter (fun m => negb (is_meta m)) msgs)).

(** The slice the [for] loop of line 470 runs over. *)
Definition loop_slice (s : Settings) : list Msg :=
  Py.slice (song_tracks (song s)) (start_idx s) (end_idx s).

(** Where the two cursors stand with respect to the slice. *)
Definition cursor_inv (s : Settings) (e : State) : Prop :=
  match pc e with
  | AtForHead =>
      exists consumed,
        loop_slice s = consumed ++ remaining e
        /\ absolute_idx e = (start_idx s + Z.of_nat (length consumed))%Z
        /\ current_idx e = (start_idx s + count_non_meta consumed)%Z
  | InGate m _ =>
      exists consumed,
        loop_slice s = consumed ++ m :: remaining e
        /\ absolute_idx e = (start_idx s + Z.of_nat (length consumed))%Z
        /\ current_idx e = (start_idx s + count_non_meta (consumed ++ [m]))%Z
  | _ => True
  end.

(** What a gate the engine stands at looks like. *)
Definition gate_inv (s : Settings) (e : State) : Prop :=
  forall m d, pc e = InGate m d ->
    practice s = 0%Z /\ notes_to_press e <> [] /\ is_note_msg m = true /\ 0 < d.




Definition stale_note : Msg := NoteOn 2 36 64 0.

Definition carried_over : State :=
  restarted 0 (set_pending_software_notes [stale_note] (started 0)).

(** The engine thread's own steps in a schedule. *)
Definition is_run (a : Action) : bool :=
  match a with Run => true | _ => false end.

Definition runs (acts : list Action) : nat := length (filter is_run acts).

(** The ways through the head of the [for] loop. *)
Inductive ForHeadCase (s : Settings) (e : State) : Prop :=
| Exhausted :
    remaining e = [] -> for_head s e = loop_tail s e -> ForHeadCase s e
| Cancelled m rest :
    remaining e = m :: rest -> is_started_midi e = false ->
    for_head s e = loop_tail s (set_remaining rest e) -> ForHeadCase s e
| Raised m rest :
    remaining e = m :: rest ->
    for_head s e = on_exception s (set_remaining rest e) -> ForHeadCase s e
| MetaDone m rest d :
    remaining e = m :: rest -> is_meta m = true ->
    for_head s e = finish_iteration s m d (set_remaining rest e) ->
    ForHeadCase s e
| GateOpened m rest d eg :
    remaining e = m :: rest -> is_meta m = false ->
    opens_gate s m d (count_note s (set_remaining rest e)) = true ->
    for_head s e = set_pc (InGate m d) eg ->
    notes_to_press eg = notes_to_press e ->
    absolute_idx eg = absolute_idx e ->
    current_idx eg = (current_idx e + 1)%Z ->
    remaining eg = rest ->
    mistakes_count eg = mistakes_count e ->
    playport eg = playport e ->
    pending_software_notes eg = pending_software_notes e ->
    is_started_midi eg = is_started_midi e ->
    ForHeadCase s e
| NoteDone m rest d :
    remaining e = m :: rest -> is_meta m = false ->
    for_head s e = finish_iteration s m d (count_note s (set_remaining rest e)) ->
    ForHeadCase s e.

(** The delay of the first gate's message at twice the tempo. *)
Definition demo_delay_200 : Q :=
  Eval vm_compute in
    match Timeline.tDelay 500000 200 480 (NoteOff 1 60 0 480) with
    | Some d => d
    | None => 0
    end.

End Engine.

(** ** The rest of [learnmidi.py] *)

Module Learn.

Import Engine.
Local Open Scope Q_scope.




(** [load_midi], lines 326-335: every note message of track [k] gets
    channel [k + offset], and a [note_off] gets velocity 0.  [mido]
    refuses a channel outside 0..15 with a [ValueError] ([None]). *)
Definition assign_msg (channel : Z) (msg : Msg) : option Msg :=
  match msg with
  | NoteOn _ n v t =>
      if ((0 <=? channel) && (channel <=? 15))%Z then Some (NoteOn channel n v t)
      else None
  | NoteOff _ n _ t =>
      if ((0 <=? channel) && (channel <=? 15))%Z then Some (NoteOff channel n 0 t)
      else None
  | _ => Some msg
  end.

Fixpoint assign_track (channel : Z) (track : list Msg) : option (list Msg) :=
  match track with
  | [] => Some []
  | msg :: rest =>
      match assign_msg channel msg with
      | None => None
      | Some msg' =>
          match assign_track channel rest with
          | None => None
          | Some rest' => Some (msg' :: rest')
          end
      end
  end.

Fixpoint assign_tracks (offset k : Z) (tracks : list (list Msg))
  : option (list (list Msg)) :=
  match tracks with
  | [] => Some []
  | track :: rest =>
      match assign_track (k + offset) track with
      | None => None
      | Some track' =>
          match assign_tracks offset (k + 1) rest with
          | None => None
          | Some rest' => Some (track' :: rest')
          end
      end
  end.

Definition assign_channels (tracks : list (list Msg)) : option (list (list Msg)) :=
  let offset := if (length tracks =? 2)%nat then 1%Z else 0%Z in
  assign_tracks offset 0 tracks.



(** Following the specification's words (4.3): "a timed boundary (a
    future note event with nonzero delay)". *)
Definition timed_boundary (s : Settings) (msg : Msg) : bool :=
  is_note_msg msg
  && match Timeline.tDelay (song_tempo (song s)) (set_tempo s)
             (ticks_per_beat (song s)) msg with
     | Some tDelay => negb (Qle_bool tDelay 0)
     | None => false
     end.




(** The setters of the tunables.  [clamp] is [lib.functions.clamp],
    which is not among the sources at hand: it is a parameter, once at
    [float] and once at [int].  The write to the settings store that
    follows each assignment is left out. *)
Definition with_loop_points (start_point end_point : Q) (s : Settings) : Settings := {|
  practice := practice s; hands := hands s; mute_hand := mute_hand s;
  start_point := start_point; end_point := end_point;
  set_tempo := set_tempo s; show_wrong_notes := show_wrong_notes s;
  is_loop_active := is_loop_active s; number_of_mistakes := number_of_mistakes s;
  notes_time := notes_time s; song := song s |}.

(** [change_start_point], up to the call of [restart_learning]. *)
Definition change_start_point (clamp : Q -> Q -> Q -> Q) (value : Z) (s : Settings)
  : Settings :=
  let start_point := start_point s + 5 * inject_Z value in
  with_loop_points (clamp start_point 0 (end_point s - 10)) (end_point s) s.

(** [change_end_point], up to the call of [restart_learning]. *)
Definition change_end_point (clamp : Q -> Q -> Q -> Q) (value : Z) (s : Settings)
  : Settings :=
  let end_point := end_point s + 5 * inject_Z value in
  with_loop_points (start_point s) (clamp end_point (start_point s + 10) 100) s.

(** The loop points as the two setters keep them. *)
Definition loop_points_ok (s : Settings) : Prop :=
  0 <= start_point s /\ start_point s + 10 <= end_point s /\ end_point s <= 100.

(** A list of loop-point changes, as the menu issues them. *)
Inductive PointChange : Type :=
| StartBy (value : Z)
| EndBy (value : Z).

Fixpoint change_points (clamp : Q -> Q -> Q -> Q) (changes : list PointChange)
  (s : Settings) : Settings :=
  match changes with
  | [] => s
  | StartBy v :: rest => change_points clamp rest (change_start_point clamp v s)
  | EndBy v :: rest => change_points clamp rest (change_end_point clamp v s)
  end.

(** One clamp that fits the description "clamped to its domain". *)
Definition clamp_q (v lo hi : Q) : Q :=
  if Qle_bool v lo then lo else if Qle_bool hi v then hi else v.

(** What [load_midi] makes of one message of track [channel]. *)
Definition assigned (channel : Z) (msg msg' : Msg) : Prop :=
  msg_time msg' = msg_time msg
  /\ is_meta msg' = is_meta msg
  /\ match msg with
     | NoteOn _ n v _ => msg' = NoteOn channel n v (msg_time msg)
     | NoteOff _ n _ _ => msg' = NoteOff channel n 0 (msg_time msg)
     | _ => msg' = msg
     end.

End Learn.

(** * Properties *)

(** ** Python list primitives *)

Module PyFacts.

Lemma mem_In x l : Py.mem x l = true <-> In x l.
Proof.
  unfold Py.mem. rewrite existsb_exists. split.
  - intros [y [Hy E]]. apply Z.eqb_eq in E. now subst.
  - intros H. exists x. split; [assumption | apply Z.eqb_refl].
Qed.

Lemma mem_false x l : Py.mem x l = false <-> ~ In x l.
Proof.
  rewrite <- mem_In. destruct (Py.mem x l); split; intros; congruence.
Qed.

Lemma issubset_spec a b :
  Py.issubset a b = true <-> (forall x, In x a -> In x b).
Proof.
  unfold Py.issubset. rewrite forallb_forall.
  split; intros H x Hx; apply mem_In; now apply H.
Qed.

Lemma In_remove_other x y l : x <> y -> (In y (Py.remove x l) <-> In y l).
Proof.
  intros Hxy. induction l as [|z t IH]; simpl; [tauto|].
  destruct (Z.eqb_spec x z) as [->|Hz]; simpl.
  - split; [tauto | intros [E|H]; [congruence | assumption]].
  - rewrite IH. tauto.
Qed.

Lemma NoDup_remove x l :
  NoDup l -> NoDup (Py.remove x l) /\ ~ In x (Py.remove x l).
Proof.
  induction 1 as [|z t Hz Ht IH]; simpl.
  - split; [constructor | tauto].
  - destruct (Z.eqb_spec x z) as [->|Hxz].
    + split; assumption.
    + destruct IH as [IH1 IH2]. split.
      * constructor; [|assumption].
        intros Hin. apply Hz. now apply (In_remove_other x z t Hxz).
      * simpl. intros [E|Hin]; [congruence | tauto].
Qed.

End PyFacts.

(** ** Timeline arithmetic *)

Module TimelineFacts.

Import Timeline.
Local Open Scope Q_scope.

Lemma pydiv_some a b : ~ b == 0 -> pydiv a b = Some (a / b).
Proof.
  intros Hb. unfold pydiv.
  destruct (Qeq_bool b 0) eqn:E; [|reflexivity].
  apply Qeq_bool_iff in E. contradiction.
Qed.

Lemma pydiv_inv a b q : pydiv a b = Some q -> ~ b == 0 /\ q = a / b.
Proof.
  unfold pydiv. destruct (Qeq_bool b 0) eqn:E; [discriminate|].
  intros [= <-]. split; [|reflexivity].
  intros H. apply Qeq_bool_iff in H. congruence.
Qed.

Lemma inject_Z_nonzero z : z <> 0%Z -> ~ inject_Z z == 0.
Proof.
  intros Hz H. apply Hz. unfold Qeq in H. simpl in H. lia.
Qed.

Lemma accumulate_app tp nt mid :
  accumulate tp nt mid = nt ++ accumulate tp [] mid.
Proof.
  revert tp nt. induction mid as [|m rest IH]; intros tp nt; simpl.
  - now rewrite app_nil_r.
  - destruct (pm_is_meta m); [apply IH|].
    rewrite (IH _ (nt ++ _)), (IH _ [_]). now rewrite <- app_assoc.
Qed.

Lemma accumulate_sorted mid : forall tp,
  Forall (fun m => 0 <= pm_time m) mid ->
  nondecreasing (accumulate tp [] mid)
  /\ Forall (fun x => tp <= x) (accumulate tp [] mid).
Proof.
  induction mid as [|m rest IH]; intros tp Hall; simpl.
  - split; [exact I | constructor].
  - inversion Hall as [|? ? Hm Hrest]; subst.
    destruct (pm_is_meta m).
    + now apply IH.
    + rewrite accumulate_app. simpl.
      destruct (IH (tp + pm_time m) Hrest) as [Hs Hge].
      assert (Hstep : tp <= tp + pm_time m).
      { rewrite <- (Qplus_0_r tp) at 1. apply Qplus_le_r. exact Hm. }
      split.
      * split; [|exact Hs].
        destruct (accumulate (tp + pm_time m) [] rest) as [|y t] eqn:E;
          [exact I|].
        now inversion Hge.
      * constructor; [exact Hstep|].
        eapply Forall_impl; [|exact Hge].
        intros x Hx. simpl in Hx. eapply Qle_trans; eassumption.
Qed.

(** C9. Timeline monotonicity: when every message delta yielded by the
    file iterator is non-negative, the [notes_time] list built by
    [load_midi] is non-decreasing and its first entry (the absolute time
    of the first non-meta message) is at least 0. *)
Theorem notes_time_monotone (mid : list PlayMsg) :
  Forall (fun m => 0 <= pm_time m) mid ->
  nondecreasing (load_notes_time mid)
  /\ (forall t, hd_error (load_notes_time mid) = Some t -> 0 <= t).
Proof.
  intros Hall. unfold load_notes_time.
  destruct (accumulate_sorted mid 0 Hall) as [Hs Hge].
  split; [exact Hs|].
  intros t Ht. destruct (accumulate 0 [] mid) as [|x l]; [discriminate|].
  injection Ht as ->. now inversion Hge.
Qed.

Lemma notes_time_monotone_witness :
  nondecreasing (load_notes_time
    [ {| pm_is_meta := true; pm_time := 1 # 2 |};
      {| pm_is_meta := false; pm_time := 0 |};
      {| pm_is_meta := false; pm_time := 1 # 4 |};
      {| pm_is_meta := false; pm_time := 0 |} ])
  /\ (forall t, hd_error (load_notes_time
    [ {| pm_is_meta := true; pm_time := 1 # 2 |};
      {| pm_is_meta := false; pm_time := 0 |};
      {| pm_is_meta := false; pm_time := 1 # 4 |};
      {| pm_is_meta := false; pm_time := 0 |} ]) = Some t -> 0 <= t).
Proof.
  apply notes_time_monotone.
  repeat constructor; simpl; unfold Qle; simpl; lia.
Defined.

End TimelineFacts.

(** ** Tick-to-second conversion in both components *)

Module TimingFacts.

Import Timeline TimelineFacts Colors Renderer.
Local Open Scope Q_scope.




(** *** The bounded buffer *)

Lemma last_n_short {A} n (l : list A) : (length l <= n)%nat -> last_n n l = l.
Proof.
  intros H. unfold last_n. replace (length l - n)%nat with 0%nat by lia.
  reflexivity.
Qed.

Lemma last_n_length {A} n (l : list A) : (length (last_n n l) <= n)%nat.
Proof. unfold last_n. rewrite length_skipn. lia. Qed.

Lemma last_n_app {A} n (a b : list A) :
  last_n n (last_n n a ++ b) = last_n n (a ++ b).
Proof.
  destruct (Nat.le_gt_cases (length a) n) as [H|H].
  - now rewrite (last_n_short n a H).
  - unfold last_n. rewrite !length_app, length_skipn.
    replace (length a - (length a - n) + length b - n)%nat with (length b) by lia.
    replace (length a + length b - n)%nat
      with (length b + (length a - n))%nat by lia.
    rewrite <- skipn_skipn. rewrite (skipn_app (length a - n)).
    replace (length a - n - length a)%nat with 0%nat by lia.
    reflexivity.
Qed.

Lemma deque_append_last buf x :
  (length buf <= 1000)%nat -> deque_append buf x = last_n 1000 (buf ++ [x]).
Proof.
  intros H. unfold deque_append, last_n. rewrite length_app. simpl length.
  destruct (1000 <=? length buf)%nat eqn:E.
  - apply Nat.leb_le in E.
    replace (length buf + 1 - 1000)%nat with 1%nat by lia.
    destruct buf; [simpl in E; lia | reflexivity].
  - apply Nat.leb_gt in E.
    replace (length buf + 1 - 1000)%nat with 0%nat by lia. reflexivity.
Qed.

Lemma load_loop_spec sg : ticks_per_beat sg <> 0%Z ->
  forall msgs ct buf, (length buf <= 1000)%nat ->
    load_loop sg msgs ct buf = Some (last_n 1000 (buf ++ note_ons sg msgs ct)).
Proof.
  intros Htpb.
  assert (Hd : ~ inject_Z (ticks_per_beat sg * 1000000) == 0).
  { apply inject_Z_nonzero. lia. }
  induction msgs as [|msg rest IH]; intros ct buf Hlen; simpl.
  - rewrite app_nil_r. now rewrite last_n_short.
  - destruct (is_meta msg); [now apply IH|].
    destruct msg as [t|c n v t|c n v t|c t]; try (now apply IH).
    destruct (0 <? v)%Z; [|now apply IH].
    rewrite (pydiv_some _ _ Hd).
    rewrite IH by (rewrite deque_append_last by exact Hlen; apply last_n_length).
    rewrite deque_append_last by exact Hlen.
    rewrite last_n_app, <- app_assoc. reflexivity.
Qed.

Lemma load_loop_bounded sg : forall msgs ct buf out,
  (length buf <= 1000)%nat ->
  load_loop sg msgs ct buf = Some out -> (length out <= 1000)%nat.
Proof.
  induction msgs as [|msg rest IH]; intros ct buf out Hlen H; simpl in H.
  - now injection H as <-.
  - destruct (is_meta msg); [now apply IH in H|].
    destruct msg as [t|c n v t|c n v t|c t]; try (now apply IH in H).
    destruct (0 <? v)%Z; [|now apply IH in H].
    destruct (pydiv _ _) as [ts|]; [|discriminate].
    apply IH in H; [exact H|].
    rewrite deque_append_last by exact Hlen. apply last_n_length.
Qed.

Lemma load_nonempty sg r :
  ticks_per_beat sg <> 0%Z -> song_tracks sg <> [] ->
  _load_notes_from_midi sg r
  = Some (set_buffer (last_n 1000 (note_ons sg (song_tracks sg) 0)) r).
Proof.
  intros Htpb Hne. unfold _load_notes_from_midi.
  destruct (song_tracks sg) as [|m rest] eqn:E; [contradiction|].
  cbn [Py.truthy negb]. rewrite <- E.
  rewrite (load_loop_spec sg Htpb) by (simpl; lia). reflexivity.
Qed.

(** *** The snapshot and the events *)






(** C8 (as stated) fails: a meta event of 960 ticks comes before a
    note-on.  Accumulated across the sequence, half a second per 480
    ticks, the note-on is one second in; the renderer buffers it with
    [start_time] 0. *)
Lemma meta_ticks_not_counted :
  let events := [MetaMessage 960; NoteOn 1 60 64 0] in
  let sg := {| song_tracks := events; song_tempo := 500000;
               ticks_per_beat := 480 |} in
  absolute_seconds 500000 480 events == 1
  /\ exists r' nd,
       _load_notes_from_midi sg init = Some r'
       /\ notes_buffer r' = [nd]
       /\ nd_midi_note nd = 60%Z
       /\ nd_start_time nd == 0
       /\ ~ Forall2 (snapshot_of (absolute_seconds 500000 480))
              (notes_buffer r') (last_n 1000 (note_on_events [] events)).
Proof.
  cbv zeta. split; [reflexivity|].
  eexists. eexists. split; [reflexivity|]. split; [reflexivity|].
  split; [reflexivity|]. split; [reflexivity|].
  intros H. inversion H as [|? ? ? ? Hs _]; subst.
  destruct Hs as (_ & _ & _ & Ht). vm_compute in Ht. discriminate Ht.
Qed.

End TimingFacts.

(** ** Flying-notes renderer *)

Module RendererFacts.

Import Colors Renderer Timeline TimelineFacts.
Local Open Scope Q_scope.

Lemma piano_keys_eq : piano_keys = _generate_piano_layout.
Proof. vm_compute. reflexivity. Qed.

(** The layout has exactly the 88 keys 21..108. *)
Lemma layout_notes : map key_midi_note piano_keys = range 21 109.
Proof. vm_compute. reflexivity. Qed.

Lemma key_info_layout n :
  (exists k, key_info n = Some k)
  <-> (exists k, In k _generate_piano_layout /\ key_midi_note k = n).
Proof.
  rewrite <- piano_keys_eq. unfold key_info. split.
  - intros [k Hk]. apply find_some in Hk as [Hin E].
    exists k. split; [exact Hin | now apply Z.eqb_eq].
  - intros [k [Hin E]].
    destruct (find (fun k0 => (key_midi_note k0 =? n)%Z) piano_keys) eqn:F.
    + now eexists.
    + exfalso. apply (find_none _ _ F) in Hin.
      apply Z.eqb_neq in Hin. contradiction.
Qed.

Lemma layout_range n :
  (exists k, In k _generate_piano_layout /\ key_midi_note k = n)
  <-> (21 <= n <= 108)%Z.
Proof.
  rewrite <- piano_keys_eq. split.
  - intros [k [Hin E]]. apply (in_map key_midi_note) in Hin.
    rewrite layout_notes, E in Hin. unfold range in Hin.
    apply in_map_iff in Hin as [i [Hi Hs]]. apply in_seq in Hs.
    simpl in Hs. lia.
  - intros Hn.
    assert (Hin : In n (map key_midi_note piano_keys)).
    { rewrite layout_notes. unfold range. apply in_map_iff.
      exists (Z.to_nat (n - 21)). split; [lia|].
      apply in_seq. simpl. lia. }
    apply in_map_iff in Hin as [k [E Hin]]. now exists k.
Qed.

Lemma in_layout_key n :
  in_layout n = true <-> exists k, key_info n = Some k.
Proof.
  unfold in_layout. rewrite existsb_exists. rewrite key_info_layout.
  split; intros [k [Hin E]]; exists k; (split; [exact Hin|]);
    now apply Z.eqb_eq.
Qed.

Lemma appears_key r note k :
  in_window r note = true -> key_info (nd_midi_note note) = Some k ->
  appears r note = true.
Proof.
  intros W K. unfold appears. apply andb_true_iff. split; [exact W|].
  apply in_layout_key. now exists k.
Qed.

Lemma appears_no_key r note :
  key_info (nd_midi_note note) = None -> appears r note = false.
Proof.
  intros K. unfold appears. apply andb_false_iff. right.
  destruct (in_layout (nd_midi_note note)) eqn:E; [|reflexivity].
  apply in_layout_key in E as [k E]. congruence.
Qed.

Lemma appears_outside r note : in_window r note = false -> appears r note = false.
Proof. intros W. unfold appears. apply andb_false_iff. left. exact W. Qed.

(** What the loop has added when it returns: one entry for each note
    that appears, in the order of the buffer. *)
Lemma frame_loop_spec colors r : forall buf acc out,
  frame_loop colors r buf acc = Some out ->
  exists added,
    out = acc ++ added
    /\ Forall2
         (fun v note =>
            depicts r v note
            /\ vn_height v = note_height (settings r)
            /\ vn_color v
               = get_learn_color colors (nd_hand note) (nd_note_type note) true
            /\ exists k, key_info (nd_midi_note note) = Some k
                 /\ vn_x_position v = key_x_position k
                 /\ vn_width v = key_width k
                 /\ vn_is_black_key v = key_is_black k)
         added (filter (appears r) buf).
Proof.
  induction buf as [|note rest IH]; intros acc out H; simpl in H.
  - injection H as <-. exists []. rewrite app_nil_r.
    split; [reflexivity | constructor].
  - cbn [filter]. destruct (in_window r note) eqn:W.
    + destruct (y_position r note) as [y|] eqn:Y; [|discriminate].
      destruct (key_info (nd_midi_note note)) as [k|] eqn:K.
      * rewrite (appears_key r note k W K).
        apply IH in H as [added [-> Hall]].
        eexists (_ :: added). split; [now rewrite <- app_assoc|].
        constructor; [|exact Hall].
        unfold depicts.
        cbn [vn_midi_note vn_hand vn_velocity vn_y_position vn_height vn_color
             vn_x_position vn_width vn_is_black_key].
        rewrite Y. split; [repeat split|].
        split; [reflexivity|]. split; [reflexivity|].
        exists k. split; [exact K|]. repeat split.
      * rewrite (appears_no_key r note K). now apply IH.
    + rewrite (appears_outside r note W). now apply IH.
Qed.

Lemma frame_loop_total colors r :
  Float64.is_zero (lookahead_time r) = false ->
  forall buf acc, exists out, frame_loop colors r buf acc = Some out.
Proof.
  intros HL. induction buf as [|note rest IH]; intros acc; simpl.
  - now eexists.
  - destruct (in_window r note); [|apply IH].
    unfold y_position, Float64.truediv. rewrite HL.
    destruct (key_info (nd_midi_note note)); apply IH.
Qed.

(** C6. Renderer windowing: a frame is produced whenever the lookahead
    window [fall_distance / 100] is not zero, and in every frame the
    visible-notes list holds, in the order of the buffer, exactly one
    entry for each buffered note whose [start_time] lies in the closed
    interval [current_time, current_time + lookahead_window] and whose
    MIDI number has a key in the layout, and nothing else.  The
    comparisons, the sum and the quotient are those of the floats. *)
Theorem frame_windowing (colors : LearnColors) (r : State) :
  (Float64.is_zero (lookahead_window r) = false ->
   exists f, _generate_frame_data colors r = Some f)
  /\ (forall f, _generate_frame_data colors r = Some f ->
      Forall2 (depicts r) (frame_notes f)
        (filter (appears r) (notes_buffer r))).
Proof.
  split.
  - intros HL. unfold _generate_frame_data.
    destruct (frame_loop_total colors r HL (notes_buffer r) []) as [out ->].
    now eexists.
  - intros f Hf. unfold _generate_frame_data in Hf.
    destruct (frame_loop colors r (notes_buffer r) []) as [out|] eqn:L;
      [|discriminate].
    injection Hf as <-. cbn [frame_notes].
    apply frame_loop_spec in L as [added [-> Hall]]. cbn [app].
    eapply Forall2_impl; [|exact Hall]. intros v note [Hd _]. exact Hd.
Qed.

Lemma running_window :
  filter (appears running_at_5) (notes_buffer running_at_5)
  = [note_at 60 (13 # 2)].
Proof. vm_compute. reflexivity. Qed.

Lemma running_lookahead : Float64.is_zero (lookahead_window running_at_5) = false.
Proof. vm_compute. reflexivity. Qed.

Lemma frame_windowing_witness :
  exists f,
    _generate_frame_data default_colors running_at_5 = Some f
    /\ map vn_midi_note (frame_notes f) = [60%Z].
Proof.
  destruct (frame_windowing default_colors running_at_5) as [Htotal Hshown].
  destruct (Htotal running_lookahead) as [f Hf].
  exists f. split; [exact Hf|].
  pose proof (Hshown f Hf) as H. rewrite running_window in H.
  inversion H as [|v note vs notes Hd Hrest]; subst.
  inversion Hrest; subst.
  destruct Hd as [Hm _]. cbn [map]. rewrite Hm. reflexivity.
Defined.

(** The upper end of the window is the float sum: with [current_time]
    0.7 and a lookahead of 0.1 s, a note at 0.8 s is not shown, although
    seven tenths and one tenth make eight tenths. *)
Lemma window_end_is_rounded :
  _generate_frame_data default_colors at_window_end
  = Some {| frame_notes := []; frame_piano_keys := piano_keys;
            frame_settings := settings at_window_end |}
  /\ (7 # 10) + 10 / 100 == 4 # 5.
Proof. split; [vm_compute; reflexivity | reflexivity]. Qed.

(** C7 (as amended). Stopping a renderer that is already stopped
    (inactive, buffer empty) raises nothing and leaves it stopped, with
    every field but the subscriber set as it was; it still sends one
    more stop message to each subscriber whose [send] succeeds, and
    forgets the subscribers whose [send] fails. *)
Theorem stop_when_stopped (send_ok : Z -> bool) (r : State) (sink : Sink) :
  is_active r = false ->
  notes_buffer r = [] ->
  let w := stop_animation send_ok (r, sink) in
  is_active (fst w) = false
  /\ notes_buffer (fst w) = []
  /\ animation_thread (fst w) = animation_thread r
  /\ current_time (fst w) = current_time r
  /\ start_time (fst w) = start_time r
  /\ settings (fst w) = settings r
  /\ websocket_clients (fst w) = filter send_ok (websocket_clients r)
  /\ snd w = sink ++ map (fun c => (c, StopMessage))
                       (filter send_ok (websocket_clients r)).
Proof.
  intros Ha Hb. unfold stop_animation, _broadcast_to_clients. simpl.
  destruct (websocket_clients r) as [|c cs]; simpl.
  - rewrite app_nil_r. repeat split.
  - repeat split.
Qed.

Lemma stop_when_stopped_witness :
  let w := stop_animation (fun _ => true)
             (fst (stop_animation (fun _ => true) (running_at_5, [])), []) in
  is_active (fst w) = false
  /\ snd w = [(7%Z, StopMessage)].
Proof.
  pose proof (stop_when_stopped (fun _ => true)
                (fst (stop_animation (fun _ => true) (running_at_5, []))) []
                eq_refl eq_refl) as H.
  simpl in H. simpl. split; [apply H | apply H].
Defined.

(** C7 (as stated) fails: the second of two stops sends the stop
    message again. *)
Lemma stop_twice_sends_twice :
  let w1 := stop_animation (fun _ => true) (running_at_5, []) in
  let w2 := stop_animation (fun _ => true) w1 in
  is_active (fst w1) = false
  /\ notes_buffer (fst w1) = []
  /\ snd w1 = [(7%Z, StopMessage)]
  /\ snd w2 = [(7%Z, StopMessage); (7%Z, StopMessage)].
Proof. repeat split. Qed.

(** C10. Position sync is gated on activity: on an inactive renderer
    [sync_with_learn_midi] changes nothing; on an active one it sets
    [current_time] to the given position and leaves every other field
    as it was. *)
Theorem sync_gated (position : Float64.float) (r : State) :
  (is_active r = false -> sync_with_learn_midi position r = r)
  /\ (is_active r = true ->
      current_time (sync_with_learn_midi position r) = position
      /\ websocket_clients (sync_with_learn_midi position r) = websocket_clients r
      /\ is_active (sync_with_learn_midi position r) = is_active r
      /\ animation_thread (sync_with_learn_midi position r) = animation_thread r
      /\ notes_buffer (sync_with_learn_midi position r) = notes_buffer r
      /\ start_time (sync_with_learn_midi position r) = start_time r
      /\ settings (sync_with_learn_midi position r) = settings r).
Proof.
  unfold sync_with_learn_midi. split; intros ->; simpl; repeat split.
Qed.

Lemma sync_gated_witness :
  sync_with_learn_midi (Float64.of_Q (7 # 2)) init = init
  /\ current_time (sync_with_learn_midi (Float64.of_Q (7 # 2)) running_at_5)
     = Float64.of_Q (7 # 2)
  /\ notes_buffer (sync_with_learn_midi (Float64.of_Q (7 # 2)) running_at_5)
     = notes_buffer running_at_5.
Proof.
  split.
  - apply (proj1 (sync_gated (Float64.of_Q (7 # 2)) init)). reflexivity.
  - pose proof (proj2 (sync_gated (Float64.of_Q (7 # 2)) running_at_5) eq_refl)
      as H.
    split; apply H.
Defined.

End RendererFacts.

(** ** Practice engine *)

Module EngineFacts.

Import Engine PyFacts.
Local Open Scope Z_scope.

(** *** The drain of the input queue *)

Lemma drain_pressed_indep tp q : forall p w pd w' pd',
  fst (fst (drain tp q p w pd)) = fst (fst (drain tp q p w' pd')).
Proof.
  induction q as [|[m st] q IH]; intros p w pd w' pd'; simpl; [reflexivity|].
  destruct (negb (is_note_msg m)); [apply IH|].
  destruct (negb (Py.mem (input_note m) tp)); [apply IH|].
  destruct (0 <? input_velocity m); apply IH.
Qed.

Lemma drain_wrong tp q : forall p w pd,
  snd (fst (drain tp q p w pd)) = w ++ map fst (filter (is_wrong tp) q).
Proof.
  induction q as [|[m st] q IH]; intros p w pd; simpl.
  - now rewrite app_nil_r.
  - unfold is_wrong at 1. simpl.
    destruct (is_note_msg m); simpl; [|apply IH].
    destruct (Py.mem (input_note m) tp); simpl.
    + destruct (0 <? input_velocity m); apply IH.
    + rewrite IH, <- app_assoc. reflexivity.
Qed.

Lemma drain_pending tp q : forall p w pd,
  snd (drain tp q p w pd) = if 0 <? wrong_ons tp q then [] else pd.
Proof.
  unfold wrong_ons.
  induction q as [|[m st] q IH]; intros p w pd; simpl; [reflexivity|].
  unfold is_wrong_on at 1, is_wrong. simpl.
  destruct (is_note_msg m); simpl; [|apply IH].
  destruct (Py.mem (input_note m) tp); simpl.
  - destruct (0 <? input_velocity m); apply IH.
  - rewrite IH. destruct (0 <? input_velocity m); simpl; [|reflexivity].
    destruct (0 <? Z.of_nat (length (filter (is_wrong_on tp) q))); reflexivity.
Qed.

Lemma drain_components tp q p w pd :
  drain tp q p w pd
  = (drain_pressed tp q p,
     w ++ map fst (filter (is_wrong tp) q),
     if 0 <? wrong_ons tp q then [] else pd).
Proof.
  rewrite <- drain_wrong with (p := p) (pd := pd).
  rewrite <- drain_pending with (p := p) (w := w).
  unfold drain_pressed. rewrite (drain_pressed_indep tp q p [] [] w pd).
  destruct (drain tp q p w pd) as [[a b] c]. reflexivity.
Qed.

Lemma count_wrong_spec tp q : forall c,
  count_wrong (map fst (filter (is_wrong tp) q)) c = c + wrong_ons tp q.
Proof.
  unfold wrong_ons.
  induction q as [|[m st] q IH]; intros c; [simpl; lia|].
  cbn [filter].
  replace (is_wrong_on tp (m, st))
    with (is_wrong tp (m, st) && (0 <? input_velocity m)) by reflexivity.
  destruct (is_wrong tp (m, st)); cbn [andb map fst count_wrong];
    [|apply IH].
  destruct (0 <? input_velocity m); cbn [length]; rewrite IH;
    [rewrite Nat2Z.inj_succ|]; lia.
Qed.

Lemma wrong_ons_nonneg tp q : 0 <= wrong_ons tp q.
Proof. unfold wrong_ons. lia. Qed.

Lemma wrong_ons_insert tp q1 q2 ev :
  is_wrong_on tp ev = true ->
  wrong_ons tp (q1 ++ ev :: q2) = wrong_ons tp (q1 ++ q2) + 1.
Proof.
  intros H. unfold wrong_ons. rewrite !filter_app. simpl. rewrite H.
  rewrite !length_app. simpl. lia.
Qed.

(** A wrong event leaves the pressed list as it is. *)
Lemma drain_pressed_skip tp ev q p :
  is_wrong tp ev = true -> drain_pressed tp (ev :: q) p = drain_pressed tp q p.
Proof.
  destruct ev as [m st]. unfold is_wrong, drain_pressed. simpl.
  intros H. apply andb_true_iff in H as [-> H]. simpl. rewrite H.
  apply drain_pressed_indep.
Qed.

Lemma drain_pressed_insert tp ev q2 : forall q1 p,
  is_wrong tp ev = true ->
  drain_pressed tp (q1 ++ ev :: q2) p = drain_pressed tp (q1 ++ q2) p.
Proof.
  induction q1 as [|[m st] q1 IH]; intros p H.
  - now apply drain_pressed_skip.
  - unfold drain_pressed in *. simpl.
    destruct (negb (is_note_msg m)); [now apply IH|].
    destruct (negb (Py.mem (input_note m) tp)).
    + rewrite (drain_pressed_indep tp (q1 ++ ev :: q2) p _ _ [] []).
      rewrite (drain_pressed_indep tp (q1 ++ q2) p _ _ [] []).
      now apply IH.
    + destruct (0 <? input_velocity m); now apply IH.
Qed.

(** The pressed list against the specification's reading of it. *)
Lemma held_app n q1 q2 b : held n (q1 ++ q2) b = held n q2 (held n q1 b).
Proof.
  revert b. induction q1 as [|[m st] q1 IH]; intros b; simpl; [reflexivity|].
  destruct (is_note_msg m && (input_note m =? n)); apply IH.
Qed.

Lemma drain_pressed_held tp q : forall p (b : Z -> bool),
  NoDup p ->
  (forall n, In n tp -> (In n p <-> b n = true)) ->
  NoDup (drain_pressed tp q p)
  /\ (forall n, In n tp ->
        (In n (drain_pressed tp q p) <-> held n q (b n) = true)).
Proof.
  unfold drain_pressed.
  induction q as [|[m st] q IH]; intros p b Hnd Hb; simpl.
  - split; assumption.
  - destruct (is_note_msg m) eqn:Hnote; simpl; [|now apply IH].
    destruct (Py.mem (input_note m) tp) eqn:Hmem; simpl.
    + apply mem_In in Hmem.
      destruct (0 <? input_velocity m) eqn:Hv.
      * set (p' := if Py.mem (input_note m) p then p else p ++ [input_note m]).
        destruct (IH p' (fun n => if input_note m =? n then true else b n))
          as [H1 H2].
        -- subst p'. destruct (Py.mem (input_note m) p) eqn:Hp; [exact Hnd|].
           apply mem_false in Hp. apply NoDup_app; [exact Hnd | | ].
           ++ constructor; [tauto | constructor].
           ++ intros x Hx [<-|[]]. contradiction.
        -- intros n Hn. subst p'.
           destruct (Z.eqb_spec (input_note m) n) as [->|Hne].
           ++ destruct (Py.mem n p) eqn:Hp.
              ** apply mem_In in Hp. tauto.
              ** split; [reflexivity|]. intros _. apply in_or_app.
                 right. now left.
           ++ destruct (Py.mem (input_note m) p) eqn:Hp; [now apply Hb|].
              rewrite in_app_iff. simpl. rewrite <- (Hb n Hn). tauto.
        -- split; [exact H1|]. intros n Hn. rewrite (H2 n Hn).
           destruct (input_note m =? n); reflexivity.
      * destruct (NoDup_remove (input_note m) p Hnd) as [Hnd' Hout].
        destruct (IH (Py.remove (input_note m) p)
                    (fun n => if input_note m =? n then false else b n))
          as [H1 H2].
        -- exact Hnd'.
        -- intros n Hn. destruct (Z.eqb_spec (input_note m) n) as [E|Hne].
           ++ rewrite <- E. split; [contradiction | discriminate].
           ++ rewrite (In_remove_other _ _ _ Hne). now apply Hb.
        -- split; [exact H1|]. intros n Hn. rewrite (H2 n Hn).
           destruct (input_note m =? n); reflexivity.
    + rewrite (drain_pressed_indep tp q p _ _ [] []).
      destruct (IH p b Hnd Hb) as [H1 H2]. split; [exact H1|].
      intros n Hn. rewrite (H2 n Hn).
      destruct (Z.eqb_spec (input_note m) n) as [E|_]; [|reflexivity].
      exfalso. apply mem_false in Hmem. apply Hmem. now rewrite E.
Qed.

(** *** Steps of the engine *)

Ltac fields :=
  cbn [is_started_midi awaiting_restart_loop current_idx mistakes_count
       pending_software_notes next_note_time next_note_delay socket_send pc
       notes_to_press notes_pressed absolute_idx time_prev remaining now
       midi_queue playport
       set_is_started_midi set_awaiting_restart_loop set_current_idx
       set_mistakes_count set_pending_software_notes set_next_note
       set_socket_send set_pc set_notes_to_press set_notes_pressed
       set_absolute_idx set_time_prev set_remaining set_now set_midi_queue
       set_playport restart_loop send] in *.

Ltac break_if :=
  match goal with
  | |- context [if ?c then _ else _] => destruct c eqn:?
  end.

(** [handle_wrong_notes] writes [mistakes_count] and
    [awaiting_restart_loop] and nothing else. *)
Lemma handle_wrong_notes_frame s w e :
  let e' := handle_wrong_notes s w e in
  pc e' = pc e /\ is_started_midi e' = is_started_midi e
  /\ current_idx e' = current_idx e /\ absolute_idx e' = absolute_idx e
  /\ remaining e' = remaining e /\ notes_to_press e' = notes_to_press e
  /\ notes_pressed e' = notes_pressed e /\ midi_queue e' = midi_queue e
  /\ playport e' = playport e
  /\ pending_software_notes e' = pending_software_notes e.
Proof.
  unfold handle_wrong_notes. repeat break_if; fields; repeat split.
Qed.

Lemma handle_wrong_notes_count s w e :
  show_wrong_notes s = 1 ->
  let tally := count_wrong w (mistakes_count e) in
  mistakes_count (handle_wrong_notes s w e) = after_threshold s tally
  /\ awaiting_restart_loop (handle_wrong_notes s w e)
     = ((number_of_mistakes s <? tally) && (0 <? number_of_mistakes s)
        || awaiting_restart_loop e).
Proof.
  intros Hs. unfold handle_wrong_notes, after_threshold. rewrite Hs. fields.
  cbn [Z.eqb Pos.eqb negb].
  destruct ((number_of_mistakes s <? _) && (0 <? number_of_mistakes s));
    fields; split; reflexivity.
Qed.

Lemma handle_wrong_notes_off s w e :
  show_wrong_notes s <> 1 -> handle_wrong_notes s w e = e.
Proof.
  intros Hs. unfold handle_wrong_notes.
  destruct (Z.eqb_spec (show_wrong_notes s) 1); [contradiction | reflexivity].
Qed.

(** The gate-wait loop keeps waiting: one drain, one call of the
    wrong-note handler. *)
Lemma gate_poll_waits s m d e :
  Py.issubset (notes_to_press e) (notes_pressed e) = false ->
  is_started_midi e = true ->
  awaiting_restart_loop e = false ->
  gate_poll s m d e
  = handle_wrong_notes s
      (map fst (filter (is_wrong (notes_to_press e)) (midi_queue e)))
      (set_pending_software_notes
         (if 0 <? wrong_ons (notes_to_press e) (midi_queue e) then []
          else pending_software_notes e)
         (set_notes_pressed
            (drain_pressed (notes_to_press e) (midi_queue e) (notes_pressed e))
            (set_midi_queue [] e))).
Proof.
  intros Hsub Hst Haw. unfold gate_poll. rewrite Hsub, Hst, Haw.
  cbn [negb andb]. rewrite drain_components. reflexivity.
Qed.

(** The gate-wait loop is left. *)
Lemma gate_poll_leaves s m d e :
  Py.issubset (notes_to_press e) (notes_pressed e) = true
  \/ is_started_midi e = false \/ awaiting_restart_loop e = true ->
  gate_poll s m d e = finish_iteration s m d (leave_gate e).
Proof.
  unfold gate_poll. intros [H|[H|H]]; rewrite H.
  - reflexivity.
  - now rewrite andb_false_r.
  - now destruct (negb _ && _).
Qed.

Lemma leave_gate_frame e :
  let e' := leave_gate e in
  pc e' = pc e /\ is_started_midi e' = is_started_midi e
  /\ awaiting_restart_loop e' = awaiting_restart_loop e
  /\ current_idx e' = current_idx e /\ absolute_idx e' = absolute_idx e
  /\ remaining e' = remaining e /\ notes_to_press e' = []
  /\ notes_pressed e' = notes_pressed e /\ midi_queue e' = midi_queue e
  /\ mistakes_count e' = mistakes_count e
  /\ now e' = now e /\ time_prev e' = time_prev e
  /\ next_note_time e' = next_note_time e.
Proof.
  unfold leave_gate. break_if; fields; repeat split.
Qed.

Lemma is_software_note s m :
  is_note_msg m = true -> exists b, is_software s m = Some b.
Proof.
  destruct m; try discriminate; intros _; unfold is_software, channel_is;
    cbn [msg_channel];
    destruct ((hands s =? 1) && negb (mute_hand s =? 2));
    destruct ((hands s =? 2) && negb (mute_hand s =? 1));
    cbn [py_and py_or]; repeat break_if; eauto.
Qed.

(** The end of an iteration on a note message: no exception, the
    cursor moves on by one, and a requested restart is taken. *)
Lemma finish_iteration_note s m d e :
  is_note_msg m = true ->
  let e' := finish_iteration s m d e in
  absolute_idx e' = absolute_idx e + 1
  /\ current_idx e' = current_idx e
  /\ remaining e' = remaining e
  /\ notes_pressed e' = notes_pressed e
  /\ is_started_midi e' = is_started_midi e
  /\ mistakes_count e' = mistakes_count e
  /\ midi_queue e' = midi_queue e
  /\ awaiting_restart_loop e' = false
  /\ pc e' = (if awaiting_restart_loop e
              then (if (is_loop_active s =? 0) || negb (is_started_midi e)
                    then Returned else AtLoopTop)
              else AtForHead).
Proof.
  intros Hm. destruct (is_software_note s m Hm) as [b Hb].
  unfold finish_iteration, note_stage.
  assert (Hmeta : is_meta m = false) by (destruct m; try discriminate; reflexivity).
  rewrite Hmeta, Hb.
  destruct b; cbn [negb]; unfold route_software, escape_valve, loop_tail;
    repeat (fields; break_if); fields; repeat split; congruence.
Qed.







(** *** The gate-wait *)

Lemma gate_wait_done s batches e :
  (forall m d, pc e <> InGate m d) -> gate_wait s batches e = e.
Proof.
  intros H. destruct batches as [|b bs]; [reflexivity|]. simpl.
  destruct (pc e) eqn:E; try reflexivity. exfalso. now apply (H msg tDelay).
Qed.

Lemma issubset_satisfied tp p hist :
  (forall n, In n tp -> (In n p <-> held n hist false = true)) ->
  Py.issubset tp p = gate_satisfied tp hist.
Proof.
  intros H. apply eq_iff_eq_true. rewrite issubset_spec.
  unfold gate_satisfied. rewrite forallb_forall.
  split; intros K n Hn; apply (H n Hn); now apply K.
Qed.

Lemma gate_wait_general s m d (Hm : is_note_msg m = true) :
  forall batches e hist,
    pc e = InGate m d ->
    is_started_midi e = true ->
    midi_queue e = [] ->
    NoDup (notes_pressed e) ->
    (forall n, In n (notes_to_press e) ->
       (In n (notes_pressed e) <-> held n hist false = true)) ->
    (forall k, (k <= length batches)%nat ->
       awaiting_restart_loop (gate_wait s (firstn k batches) e) = false) ->
    let tp := notes_to_press e in
    let e' := gate_wait s batches e in
    ((forall k, (k < length batches)%nat ->
        gate_satisfied tp (hist ++ concat (firstn k batches)) = false) ->
     pc e' = InGate m d
     /\ absolute_idx e' = absolute_idx e
     /\ current_idx e' = current_idx e
     /\ remaining e' = remaining e
     /\ (forall n, In n tp ->
           (In n (notes_pressed e') <-> held n (hist ++ concat batches) false = true)))
    /\ ((exists k, (k < length batches)%nat
           /\ gate_satisfied tp (hist ++ concat (firstn k batches)) = true) ->
        pc e' = AtForHead
        /\ absolute_idx e' = absolute_idx e + 1
        /\ Py.issubset tp (notes_pressed e') = true).
Proof.
  induction batches as [|b bs IH]; intros e hist Hpc Hst Hq Hnd Hinv Haw tp e'.
  - subst e'. simpl. rewrite app_nil_r. split.
    + intros _. repeat split; auto; now apply Hinv.
    + intros [k [Hk _]]. simpl in Hk. lia.
  - pose proof (Haw 0%nat (Nat.le_0_l _)) as Haw0. simpl in Haw0.
    pose proof (issubset_satisfied _ _ _ Hinv) as Hsat. fold tp in Hsat.
    subst e'. simpl. rewrite Hpc, Hq. cbn [app].
    set (e0 := set_midi_queue b e).
    unfold step. replace (pc e0) with (InGate m d) by (symmetry; exact Hpc).
    destruct (Py.issubset tp (notes_pressed e)) eqn:Hsub.
    + (* the gate is satisfied at this poll *)
      rewrite gate_poll_leaves by (left; exact Hsub).
      pose proof (finish_iteration_note s m d (leave_gate e0) Hm) as F.
      pose proof (leave_gate_frame e0) as L. cbv zeta in F, L.
      destruct L as (_ & _ & Law & _ & Labs & _ & _ & Lpr & _).
      destruct F as (Fabs & _ & _ & Fpr & _ & _ & _ & _ & Fpc).
      rewrite Law in Fpc. subst e0. fields. rewrite Haw0 in Fpc.
      rewrite gate_wait_done by (intros ? ?; rewrite Fpc; discriminate).
      split.
      * intros K. specialize (K 0%nat). simpl in K. rewrite app_nil_r in K.
        rewrite <- Hsat in K. discriminate K. lia.
      * intros _. rewrite Fpc, Fabs, Labs, Fpr, Lpr. fields.
        repeat split. exact Hsub.
    + (* it is not: drain, handle the wrong notes, poll again *)
      rewrite gate_poll_waits;
        [| subst e0; fields; exact Hsub | exact Hst | exact Haw0].
      set (e1 := handle_wrong_notes s _ _).
      pose proof (handle_wrong_notes_frame s
        (map fst (filter (is_wrong (notes_to_press e0)) (midi_queue e0)))
        (set_pending_software_notes
           (if 0 <? wrong_ons (notes_to_press e0) (midi_queue e0) then []
            else pending_software_notes e0)
           (set_notes_pressed
              (drain_pressed (notes_to_press e0) (midi_queue e0) (notes_pressed e0))
              (set_midi_queue [] e0)))) as W.
      cbv zeta in W. fold e1 in W. subst e0. fields.
      destruct W as (Wpc & Wst & Wcur & Wabs & Wrem & Wtp & Wpr & Wq & _).
      destruct (drain_pressed_held tp b (notes_pressed e)
                  (fun n => held n hist false) Hnd Hinv) as [Dnd Dinv].
      destruct (IH e1 (hist ++ b)) as [I1 I2].
      * now rewrite Wpc.
      * now rewrite Wst.
      * exact Wq.
      * now rewrite Wpr.
      * rewrite Wtp, Wpr. intros n Hn. rewrite held_app. now apply Dinv.
      * intros k Hk. specialize (Haw (S k)). simpl in Haw.
        rewrite Hpc, Hq in Haw. cbn [app] in Haw. unfold step in Haw.
        replace (pc (set_midi_queue b e)) with (InGate m d) in Haw
          by (symmetry; exact Hpc).
        rewrite gate_poll_waits in Haw; [| exact Hsub | exact Hst | exact Haw0].
        apply Haw. lia.
      * rewrite Wtp in I1, I2. fold tp in I1, I2.
        rewrite Wabs, Wcur, Wrem in I1. rewrite Wabs in I2. split.
        -- intros K. destruct I1 as (P1 & P2 & P3 & P4 & P5).
           ++ intros k Hk. rewrite <- app_assoc.
              apply (K (S k)). simpl. lia.
           ++ split; [exact P1|]. split; [exact P2|]. split; [exact P3|].
              split; [exact P4|]. intros n Hn. cbn [concat].
              rewrite app_assoc. now apply P5.
        -- intros [k [Hk Hs]]. apply I2. destruct k as [|k].
           ++ simpl in Hs. rewrite app_nil_r, <- Hsat in Hs. discriminate.
           ++ exists k. split; [simpl in Hk; lia|].
              simpl in Hs. now rewrite <- app_assoc.
Qed.

Lemma held_note_ons n q :
  Forall (fun ev => note_on_event ev = true) q ->
  forall b, held n q b = b || existsb (fun ev => input_note (fst ev) =? n) q.
Proof.
  induction 1 as [|[msg st] q Hev _ IH]; intros b; simpl.
  - now rewrite orb_false_r.
  - unfold note_on_event in Hev. simpl in Hev.
    destruct msg; try discriminate. simpl. rewrite Hev, !IH.
    destruct (note =? n); simpl; [now rewrite orb_true_r | reflexivity].
Qed.

Lemma existsb_Permutation {A : Type} (f : A -> bool) q q' :
  Permutation q q' -> existsb f q = existsb f q'.
Proof.
  induction 1; simpl; try congruence.
  destruct (f x), (f y); reflexivity.
Qed.

Lemma gate_satisfied_Permutation tp q q' :
  Permutation q q' ->
  Forall (fun ev => note_on_event ev = true) q ->
  gate_satisfied tp q = gate_satisfied tp q'.
Proof.
  intros Hp Hq.
  assert (Hq' : Forall (fun ev => note_on_event ev = true) q')
    by (eapply Permutation_Forall; eassumption).
  unfold gate_satisfied. induction tp as [|n tp IH]; simpl; [reflexivity|].
  rewrite IH, (held_note_ons n q Hq), (held_note_ons n q' Hq').
  now rewrite (existsb_Permutation _ q q' Hp).
Qed.

(** C2. Gate-wait correctness.  The engine stands at a gate with
    nothing pressed yet; before each of its polls a batch of input
    events is queued, and no restart is requested along the way.  Then
    the wait is over exactly when, at one of the polls, the notes held
    according to the events drained so far (note-ons with velocity > 0
    minus later note-offs) include every note to press; the engine then
    moves on by one message.  Until then it stays at the gate with the
    cursor where it was.  The verdict does not depend on the order in
    which note-ons arrive. *)
Theorem gate_wait_correct (s : Settings) (m : Msg) (d : Q) (e : State)
  (batches : list (list (Msg * Q))) :
  pc e = InGate m d ->
  is_note_msg m = true ->
  is_started_midi e = true ->
  notes_pressed e = [] ->
  midi_queue e = [] ->
  (forall k, (k <= length batches)%nat ->
     awaiting_restart_loop (gate_wait s (firstn k batches) e) = false) ->
  let tp := notes_to_press e in
  let e' := gate_wait s batches e in
  ((forall k, (k < length batches)%nat ->
      gate_satisfied tp (concat (firstn k batches)) = false) ->
   pc e' = InGate m d
   /\ absolute_idx e' = absolute_idx e
   /\ current_idx e' = current_idx e
   /\ remaining e' = remaining e
   /\ (forall n, In n tp ->
         (In n (notes_pressed e') <-> held n (concat batches) false = true)))
  /\ ((exists k, (k < length batches)%nat
         /\ gate_satisfied tp (concat (firstn k batches)) = true) ->
      pc e' = AtForHead
      /\ absolute_idx e' = absolute_idx e + 1
      /\ Py.issubset tp (notes_pressed e') = true)
  /\ (forall q q', Permutation q q' ->
        Forall (fun ev => note_on_event ev = true) q ->
        gate_satisfied tp q = gate_satisfied tp q').
Proof.
  intros Hpc Hm Hst Hpr Hq Haw tp e'.
  destruct (gate_wait_general s m d Hm batches e [] Hpc Hst Hq) as [G1 G2].
  - rewrite Hpr. constructor.
  - rewrite Hpr. intros n _. simpl. split; [contradiction | discriminate].
  - exact Haw.
  - split; [exact G1|]. split; [exact G2|].
    intros q q'. apply gate_satisfied_Permutation.
Qed.

Lemma at_first_gate_pc :
  pc (at_first_gate 1 1) = InGate (NoteOff 1 60 0 480) demo_delay.
Proof. vm_compute. reflexivity. Qed.

Lemma at_first_gate_started : is_started_midi (at_first_gate 1 1) = true.
Proof. vm_compute. reflexivity. Qed.

Lemma at_first_gate_pressed : notes_pressed (at_first_gate 1 1) = [].
Proof. vm_compute. reflexivity. Qed.

Lemma at_first_gate_queue : midi_queue (at_first_gate 1 1) = [].
Proof. vm_compute. reflexivity. Qed.

Lemma chord_no_restart k :
  awaiting_restart_loop
    (gate_wait (demo_settings 1 1) (firstn k chord_batches) (at_first_gate 1 1))
  = false.
Proof.
  destruct k as [|[|[|[|k]]]]; vm_compute; reflexivity.
Qed.

Lemma chord_no_restart_2 k :
  awaiting_restart_loop
    (gate_wait (demo_settings 1 1) (firstn k (firstn 2 chord_batches))
       (at_first_gate 1 1))
  = false.
Proof.
  destruct k as [|[|[|k]]]; vm_compute; reflexivity.
Qed.

Lemma gate_wait_correct_witness :
  pc (gate_wait (demo_settings 1 1) chord_batches (at_first_gate 1 1)) = AtForHead
  /\ pc (gate_wait (demo_settings 1 1) (firstn 2 chord_batches) (at_first_gate 1 1))
     = InGate (NoteOff 1 60 0 480) demo_delay.
Proof.
  pose proof (gate_wait_correct (demo_settings 1 1) (NoteOff 1 60 0 480)
                demo_delay (at_first_gate 1 1) chord_batches
                at_first_gate_pc eq_refl at_first_gate_started
                at_first_gate_pressed at_first_gate_queue
                (fun k _ => chord_no_restart k)) as H3.
  pose proof (gate_wait_correct (demo_settings 1 1) (NoteOff 1 60 0 480)
                demo_delay (at_first_gate 1 1) (firstn 2 chord_batches)
                at_first_gate_pc eq_refl at_first_gate_started
                at_first_gate_pressed at_first_gate_queue
                (fun k _ => chord_no_restart_2 k)) as H2.
  cbv zeta in H3, H2.
  destruct H3 as (_ & H3 & _). destruct H2 as (H2 & _).
  split.
  - refine (proj1 (H3 _)).
    exists 2%nat. split; [simpl; lia | vm_compute; reflexivity].
  - refine (proj1 (H2 _)).
    intros k Hk. simpl in Hk.
    destruct k as [|[|k]]; [vm_compute; reflexivity .. | lia].
Defined.

(** *** Whole steps from the three control points *)

(** A poll that keeps waiting. *)
Lemma step_waiting s m d e :
  pc e = InGate m d ->
  Py.issubset (notes_to_press e) (notes_pressed e) = false ->
  is_started_midi e = true ->
  awaiting_restart_loop e = false ->
  let e' := step s e in
  let tally := mistakes_count e + wrong_ons (notes_to_press e) (midi_queue e) in
  pc e' = InGate m d
  /\ is_started_midi e' = true
  /\ current_idx e' = current_idx e
  /\ absolute_idx e' = absolute_idx e
  /\ remaining e' = remaining e
  /\ notes_to_press e' = notes_to_press e
  /\ notes_pressed e'
     = drain_pressed (notes_to_press e) (midi_queue e) (notes_pressed e)
  /\ midi_queue e' = []
  /\ playport e' = playport e
  /\ pending_software_notes e'
     = (if 0 <? wrong_ons (notes_to_press e) (midi_queue e) then []
        else pending_software_notes e)
  /\ (show_wrong_notes s = 1 ->
      mistakes_count e' = after_threshold s tally
      /\ awaiting_restart_loop e'
         = ((number_of_mistakes s <? tally) && (0 <? number_of_mistakes s)))
  /\ (show_wrong_notes s <> 1 ->
      mistakes_count e' = mistakes_count e /\ awaiting_restart_loop e' = false).
Proof.
  intros Hpc Hsub Hst Haw. cbv zeta. unfold step. rewrite Hpc.
  rewrite (gate_poll_waits s m d e Hsub Hst Haw).
  match goal with
  | |- context [handle_wrong_notes s ?w ?x] =>
      pose proof (handle_wrong_notes_frame s w x) as F;
      pose proof (handle_wrong_notes_count s w x) as C;
      pose proof (handle_wrong_notes_off s w x) as O
  end.
  cbv zeta in F, C. fields.
  destruct F as (F1 & F2 & F3 & F4 & F5 & F6 & F7 & F8 & F9 & F10).
  rewrite F1, F2, F3, F4, F5, F6, F7, F8, F9, F10.
  repeat (split; [first [assumption | reflexivity]|]). split.
  - intros Hs. destruct (C Hs) as [C1 C2].
    rewrite count_wrong_spec in C1, C2. rewrite C1, C2, Haw, orb_false_r.
    split; reflexivity.
  - intros Hs. rewrite (O Hs). fields. split; [reflexivity | exact Haw].
Qed.

(** A poll that leaves the gate. *)
Lemma step_leaving s m d e :
  pc e = InGate m d ->
  is_note_msg m = true ->
  Py.issubset (notes_to_press e) (notes_pressed e) = true
  \/ is_started_midi e = false \/ awaiting_restart_loop e = true ->
  let e' := step s e in
  absolute_idx e' = absolute_idx e + 1
  /\ is_started_midi e' = is_started_midi e
  /\ awaiting_restart_loop e' = false
  /\ mistakes_count e' = mistakes_count e
  /\ notes_pressed e' = notes_pressed e
  /\ pc e' = (if awaiting_restart_loop e
              then (if (is_loop_active s =? 0) || negb (is_started_midi e)
                    then Returned else AtLoopTop)
              else AtForHead).
Proof.
  intros Hpc Hm Hout. cbv zeta. unfold step. rewrite Hpc.
  rewrite (gate_poll_leaves s m d e Hout).
  pose proof (finish_iteration_note s m d (leave_gate e) Hm) as F.
  pose proof (leave_gate_frame e) as L. cbv zeta in F, L.
  destruct L as (_ & L2 & L3 & _ & L5 & _ & _ & L8 & _ & L10 & _).
  destruct F as (F1 & _ & _ & F4 & F5 & F6 & _ & F8 & F9).
  rewrite F1, F4, F5, F6, F8, F9, L2, L3, L5, L8, L10. repeat split.
Qed.

(** Every entry into a pass over the slice. *)
Lemma loop_top_entry s e :
  pc e = AtLoopTop ->
  let e' := step s e in
  pc e' = AtForHead
  /\ current_idx e' = start_idx s
  /\ absolute_idx e' = start_idx s
  /\ remaining e' = Py.slice (song_tracks (song s)) (start_idx s) (end_idx s)
  /\ notes_to_press e' = []
  /\ pending_software_notes e' = pending_software_notes e
  /\ notes_pressed e' = notes_pressed e
  /\ awaiting_restart_loop e' = awaiting_restart_loop e
  /\ is_started_midi e' = is_started_midi e
  /\ mistakes_count e' = mistakes_count e
  /\ playport e' = playport e.
Proof.
  intros Hpc. cbv zeta. unfold step. rewrite Hpc. unfold loop_top. fields.
  repeat split.
Qed.


(** *** Loop restart *)

(** C1 (as amended). A restart requested while the engine waits at a
    gate (looping enabled, engine not cancelled) ends the iteration and
    brings the engine back to the top of the loop with the request
    cleared; on re-entering the pass over the slice, [current_idx] and
    the cursor are at the slice start derived from [start_point] and
    the notes-to-press list is empty.  The restart itself does not
    clear [pending_software_notes] nor the pressed list: they are
    carried into the new pass as the interrupted iteration left them.
    The last part holds of every entry into a pass, whatever led to it. *)
Theorem restart_reentry (s : Settings) (m : Msg) (d : Q) (e : State) :
  pc e = InGate m d ->
  is_note_msg m = true ->
  awaiting_restart_loop e = true ->
  is_started_midi e = true ->
  is_loop_active s <> 0 ->
  let e1 := step s e in
  let e2 := step s e1 in
  pc e1 = AtLoopTop
  /\ awaiting_restart_loop e1 = false
  /\ is_started_midi e1 = true
  /\ pc e2 = AtForHead
  /\ current_idx e2 = start_idx s
  /\ absolute_idx e2 = start_idx s
  /\ remaining e2 = Py.slice (song_tracks (song s)) (start_idx s) (end_idx s)
  /\ notes_to_press e2 = []
  /\ pending_software_notes e2 = pending_software_notes e1
  /\ notes_pressed e2 = notes_pressed e
  /\ (forall e0, pc e0 = AtLoopTop ->
      pc (step s e0) = AtForHead
      /\ current_idx (step s e0) = start_idx s
      /\ absolute_idx (step s e0) = start_idx s
      /\ notes_to_press (step s e0) = []
      /\ pending_software_notes (step s e0) = pending_software_notes e0
      /\ notes_pressed (step s e0) = notes_pressed e0).
Proof.
  intros Hpc Hm Haw Hst Hloop. cbv zeta.
  pose proof (step_leaving s m d e Hpc Hm (or_intror (or_intror Haw))) as L.
  cbv zeta in L. destruct L as (_ & L2 & L3 & _ & L5 & L6).
  rewrite Haw, Hst in L6.
  destruct (Z.eqb_spec (is_loop_active s) 0) as [|_]; [contradiction|].
  cbn [orb negb] in L6.
  pose proof (loop_top_entry s (step s e) L6) as T. cbv zeta in T.
  destruct T as (T1 & T2 & T3 & T4 & T5 & T6 & T7 & _).
  rewrite L2, Hst, T7, L5.
  repeat (split; [first [assumption | reflexivity]|]).
  intros e0 H0. pose proof (loop_top_entry s e0 H0) as T0. cbv zeta in T0.
  destruct T0 as (U1 & U2 & U3 & _ & U5 & U6 & U7 & _).
  repeat split; assumption.
Qed.

Lemma restart_at_first_gate_pc :
  pc (restart_loop (at_first_gate 1 1)) = InGate (NoteOff 1 60 0 480) demo_delay.
Proof. vm_compute. reflexivity. Qed.

Lemma restart_reentry_witness :
  current_idx (step (demo_settings 1 1)
                 (step (demo_settings 1 1) (restart_loop (at_first_gate 1 1))))
    = start_idx (demo_settings 1 1)
  /\ notes_to_press (step (demo_settings 1 1)
                       (step (demo_settings 1 1) (restart_loop (at_first_gate 1 1))))
     = [].
Proof.
  pose proof (restart_reentry (demo_settings 1 1) (NoteOff 1 60 0 480) demo_delay
                (restart_loop (at_first_gate 1 1))
                restart_at_first_gate_pc eq_refl eq_refl at_first_gate_started
                ltac:(discriminate)) as H.
  cbv zeta in H.
  destruct H as (_ & _ & _ & _ & H5 & _ & _ & H8 & _).
  split; [exact H5 | exact H8].
Defined.

(** C1 (as stated) fails: the player holds one key of the chord, a
    restart is requested, and the new pass starts with the software
    note still pending and the held key still in the pressed list. *)
Lemma restart_keeps_pending :
  let e := exec (demo_settings 1 1)
             [KeyEvent (NoteOn 0 60 80 0) 0; Run; RestartLoop; Run; Run]
             (at_first_gate 1 1) in
  pc e = AtForHead
  /\ current_idx e = 0
  /\ notes_to_press e = []
  /\ pending_software_notes e = [NoteOn 2 48 64 0]
  /\ notes_pressed e = [60].
Proof. vm_compute. repeat split. Qed.

(** *** Mistakes *)

(** C3 (as amended). At a gate, with the wrong-note handler on and a
    non-zero threshold: a poll whose wrong note-ons keep the tally at or
    below the threshold only raises [mistakes_count]; the poll that
    takes the tally above it resets [mistakes_count] to 0 and requests
    the restart, leaving [is_started_midi] alone.  The engine's next
    step takes the request: with looping enabled it is back at the top
    of the loop and re-enters at the slice start; with looping disabled
    the run ends. *)
Theorem mistake_threshold (s : Settings) (m : Msg) (d : Q) (e : State) :
  pc e = InGate m d ->
  is_note_msg m = true ->
  is_started_midi e = true ->
  awaiting_restart_loop e = false ->
  Py.issubset (notes_to_press e) (notes_pressed e) = false ->
  show_wrong_notes s = 1 ->
  0 < number_of_mistakes s ->
  let tally := mistakes_count e + wrong_ons (notes_to_press e) (midi_queue e) in
  let e1 := step s e in
  let e2 := step s e1 in
  (tally <= number_of_mistakes s ->
   mistakes_count e1 = tally /\ awaiting_restart_loop e1 = false
   /\ pc e1 = InGate m d)
  /\ (number_of_mistakes s < tally ->
      mistakes_count e1 = 0
      /\ awaiting_restart_loop e1 = true
      /\ is_started_midi e1 = true
      /\ pc e1 = InGate m d
      /\ mistakes_count e2 = 0
      /\ awaiting_restart_loop e2 = false
      /\ is_started_midi e2 = true
      /\ (is_loop_active s <> 0 ->
          pc e2 = AtLoopTop
          /\ pc (step s e2) = AtForHead
          /\ current_idx (step s e2) = start_idx s)
      /\ (is_loop_active s = 0 -> pc e2 = Returned)).
Proof.
  intros Hpc Hm Hst Haw Hsub Hs Hn. cbv zeta.
  pose proof (step_waiting s m d e Hpc Hsub Hst Haw) as W. cbv zeta in W.
  destruct W as (W1 & W2 & _ & _ & _ & _ & _ & _ & _ & _ & W11 & _).
  destruct (W11 Hs) as [Wc Wa]. unfold after_threshold in Wc.
  split; intros Ht.
  - rewrite Wc, Wa.
    replace (number_of_mistakes s <? _) with false by (symmetry; apply Z.ltb_ge; lia).
    repeat split. exact W1.
  - assert (Hlt : (number_of_mistakes s
                   <? mistakes_count e + wrong_ons (notes_to_press e) (midi_queue e))
                  = true) by (apply Z.ltb_lt; lia).
    assert (Hpos : (0 <? number_of_mistakes s) = true) by (apply Z.ltb_lt; lia).
    rewrite Hlt, Hpos in Wc, Wa. cbn [andb] in Wc, Wa.
    pose proof (step_leaving s m d (step s e) W1 Hm (or_intror (or_intror Wa))) as L.
    cbv zeta in L. destruct L as (_ & L2 & L3 & L4 & _ & L6).
    rewrite Wa, W2 in L6. cbn [negb] in L6. rewrite orb_false_r in L6.
    rewrite L2, L3, L4, Wc, W2.
    repeat (split; [first [assumption | reflexivity]|]). split.
    + intros Hloop.
      destruct (Z.eqb_spec (is_loop_active s) 0) as [|_]; [contradiction|].
      pose proof (loop_top_entry s _ L6) as T. cbv zeta in T.
      destruct T as (T1 & T2 & _). repeat split; assumption.
    + intros Hloop. rewrite Hloop in L6. exact L6.
Qed.

Lemma three_mistakes_pc :
  pc (three_mistakes 1) = InGate (NoteOff 1 60 0 480) demo_delay.
Proof. vm_compute. reflexivity. Qed.

Lemma mistake_threshold_witness :
  mistakes_count (three_mistakes 1) = 3
  /\ mistakes_count (step (demo_settings 1 1) (three_mistakes 1)) = 0
  /\ awaiting_restart_loop (step (demo_settings 1 1) (three_mistakes 1)) = true
  /\ pc (step (demo_settings 1 1) (step (demo_settings 1 1) (three_mistakes 1)))
     = AtLoopTop.
Proof.
  pose proof (mistake_threshold (demo_settings 1 1) (NoteOff 1 60 0 480)
                demo_delay (three_mistakes 1)
                three_mistakes_pc eq_refl eq_refl eq_refl eq_refl eq_refl eq_refl)
    as H.
  cbv zeta in H. destruct H as [_ H].
  assert (Ht : number_of_mistakes (demo_settings 1 1)
               < mistakes_count (three_mistakes 1)
                 + wrong_ons (notes_to_press (three_mistakes 1))
                     (midi_queue (three_mistakes 1)))
    by (vm_compute; reflexivity).
  destruct (H Ht) as (H1 & H2 & _ & _ & _ & _ & _ & H8 & _).
  split; [vm_compute; reflexivity|]. split; [exact H1|]. split; [exact H2|].
  refine (proj1 (H8 _)). discriminate.
Defined.

(** C3 (as stated) fails when looping is disabled: the fourth wrong
    note-on resets the counter and requests the restart, and the
    engine's next step ends the run instead of recycling the loop. *)
Lemma mistakes_end_the_run :
  let e1 := step (demo_settings 0 1) (three_mistakes 0) in
  let e2 := step (demo_settings 0 1) e1 in
  mistakes_count (three_mistakes 0) = 3
  /\ mistakes_count e1 = 0
  /\ awaiting_restart_loop e1 = true
  /\ pc e2 = Returned.
Proof. vm_compute. repeat split. Qed.

(** *** Pending software notes *)










(** *** Wrong notes *)

(** C5 (as amended). At a gate, with the wrong-note handler on
    ([show_wrong_notes] = 1): an input note-on with velocity above 0
    whose note is not among the notes to press is put on the wrong-notes
    list, adds exactly one to the tally of mistakes the handler counts
    (the threshold test then applies to that tally), and changes neither
    the pressed list nor the gate's verdict: both are what they would
    be without the event, and the engine stays at the gate. *)
Theorem wrong_note_isolated (s : Settings) (m : Msg) (d : Q) (e : State)
  (q1 q2 : list (Msg * Q)) (c n v t : Z) (stamp : Q) :
  pc e = InGate m d ->
  is_started_midi e = true ->
  awaiting_restart_loop e = false ->
  Py.issubset (notes_to_press e) (notes_pressed e) = false ->
  show_wrong_notes s = 1 ->
  ~ In n (notes_to_press e) ->
  0 < v ->
  let tp := notes_to_press e in
  let ev := (NoteOn c n v t, stamp) in
  let e1 := step s (set_midi_queue (q1 ++ ev :: q2) e) in
  let e0 := step s (set_midi_queue (q1 ++ q2) e) in
  let tally := mistakes_count e + wrong_ons tp (q1 ++ q2) in
  In (NoteOn c n v t)
     (snd (fst (drain tp (q1 ++ ev :: q2) (notes_pressed e) []
                  (pending_software_notes e))))
  /\ mistakes_count e0 = after_threshold s tally
  /\ mistakes_count e1 = after_threshold s (tally + 1)
  /\ notes_pressed e1 = notes_pressed e0
  /\ Py.issubset tp (notes_pressed e1) = Py.issubset tp (notes_pressed e0)
  /\ pc e1 = InGate m d
  /\ absolute_idx e1 = absolute_idx e.
Proof.
  intros Hpc Hst Haw Hsub Hs Hn Hv. cbv zeta.
  assert (Hw : is_wrong (notes_to_press e) (NoteOn c n v t, stamp) = true).
  { unfold is_wrong. cbn [fst is_note_msg input_note andb].
    apply negb_true_iff. now apply mem_false. }
  assert (Hwo : is_wrong_on (notes_to_press e) (NoteOn c n v t, stamp) = true).
  { unfold is_wrong_on. rewrite Hw. cbn [fst input_velocity andb].
    now apply Z.ltb_lt. }
  pose proof (step_waiting s m d (set_midi_queue (q1 ++ (NoteOn c n v t, stamp) :: q2) e)
                Hpc Hsub Hst Haw) as W1.
  pose proof (step_waiting s m d (set_midi_queue (q1 ++ q2) e)
                Hpc Hsub Hst Haw) as W0.
  cbv zeta in W1, W0. fields.
  destruct W1 as (P1 & _ & _ & A1 & _ & _ & N1 & _ & _ & _ & C1 & _).
  destruct W0 as (_ & _ & _ & _ & _ & _ & N0 & _ & _ & _ & C0 & _).
  destruct (C1 Hs) as [C1' _]. destruct (C0 Hs) as [C0' _].
  rewrite (wrong_ons_insert _ _ _ _ Hwo) in C1'.
  rewrite N1, N0, (drain_pressed_insert _ _ _ _ _ Hw).
  split.
  - rewrite drain_wrong. cbn [app]. rewrite filter_app, map_app.
    cbn [filter]. rewrite Hw. apply in_or_app. right. now left.
  - split; [exact C0'|]. split; [now rewrite Z.add_assoc in C1'|].
    repeat split; assumption.
Qed.

Lemma wrong_note_isolated_witness :
  mistakes_count (step (demo_settings 1 1)
                    (set_midi_queue ([] ++ (wrong_key, 0%Q) :: []) (at_first_gate 1 1)))
    = after_threshold (demo_settings 1 1)
        (mistakes_count (at_first_gate 1 1)
         + wrong_ons (notes_to_press (at_first_gate 1 1)) ([] ++ []) + 1)
  /\ notes_pressed (step (demo_settings 1 1)
                      (set_midi_queue ([] ++ (wrong_key, 0%Q) :: []) (at_first_gate 1 1)))
     = notes_pressed (step (demo_settings 1 1)
                        (set_midi_queue ([] ++ []) (at_first_gate 1 1)))
  /\ pc (step (demo_settings 1 1)
           (set_midi_queue ([] ++ (wrong_key, 0%Q) :: []) (at_first_gate 1 1)))
     = InGate (NoteOff 1 60 0 480) demo_delay.
Proof.
  pose proof (wrong_note_isolated (demo_settings 1 1) (NoteOff 1 60 0 480)
                demo_delay (at_first_gate 1 1) [] [] 0 67 80 0 0%Q
                at_first_gate_pc at_first_gate_started eq_refl eq_refl eq_refl)
    as H.
  cbv zeta in H.
  destruct H as (_ & _ & H3 & H4 & _ & H6 & _).
  - vm_compute. intros [E|[E|[]]]; discriminate E.
  - reflexivity.
  - split; [exact H3|]. split; [exact H4 | exact H6].
Defined.

(** C5 (as stated) fails when the wrong-note handler is off: key 67
    is struck at the gate on 60 and 64 and [mistakes_count] stays 0.
    It stays 0 as well, handler on, for a note-on of velocity 0. *)
Lemma wrong_note_uncounted :
  let e := exec (demo_settings 1 0) [KeyEvent wrong_key 0; Run]
             (at_first_gate 1 0) in
  let e' := exec (demo_settings 1 1) [KeyEvent (NoteOn 0 67 0 0) 0; Run]
              (at_first_gate 1 1) in
  notes_to_press (at_first_gate 1 0) = [60; 64]
  /\ mistakes_count (at_first_gate 1 0) = 0
  /\ midi_queue e = []
  /\ mistakes_count e = 0
  /\ mistakes_count (at_first_gate 1 1) = 0
  /\ midi_queue e' = []
  /\ mistakes_count e' = 0.
Proof. vm_compute. repeat split. Qed.

End EngineFacts.

(** ** Practice engine: whole runs *)

Module EngineRuns.

Import Engine PyFacts EngineFacts.
Local Open Scope Z_scope.

(** What the end of an iteration does to the control state, whatever
    the message. *)
Lemma finish_iteration_frame s m d e :
  let e' := finish_iteration s m d e in
  remaining e' = remaining e
  /\ current_idx e' = current_idx e
  /\ mistakes_count e' = mistakes_count e
  /\ (pc e' = AtForHead ->
      absolute_idx e' = absolute_idx e + 1
      /\ is_started_midi e' = is_started_midi e)
  /\ (pc e' = AtForHead \/ pc e' = AtLoopTop \/ pc e' = Returned)
  /\ (is_started_midi e = false ->
      is_started_midi e' = false /\ pc e' <> AtLoopTop)
  /\ (forall m0 d0, pc e' <> InGate m0 d0).
Proof.
  cbv zeta. unfold finish_iteration, note_stage.
  destruct (is_meta m); [|destruct (is_software s m) as [[|]|]];
    cbn [negb]; unfold route_software, escape_valve, on_exception, loop_tail;
    repeat (fields; break_if); fields;
    repeat split; intros; try discriminate; try congruence; auto;
    try match goal with
        | H : is_started_midi ?x = false,
          H0 : _ || negb (is_started_midi ?x) = false |- _ =>
            rewrite H, orb_true_r in H0; discriminate H0
        | H0 : _ || negb false = false |- _ =>
            rewrite orb_true_r in H0; discriminate H0
        end.
Qed.

Lemma count_note_frame s e :
  let e' := count_note s e in
  current_idx e' = current_idx e + 1
  /\ absolute_idx e' = absolute_idx e /\ remaining e' = remaining e
  /\ notes_to_press e' = notes_to_press e /\ pc e' = pc e
  /\ is_started_midi e' = is_started_midi e
  /\ mistakes_count e' = mistakes_count e
  /\ playport e' = playport e
  /\ pending_software_notes e' = pending_software_notes e
  /\ now e' = now e /\ time_prev e' = time_prev e.
Proof.
  cbv zeta. unfold count_note.
  destruct (Py.index (notes_time s) (current_idx e)); fields; repeat split.
Qed.

Lemma loop_tail_frame s e :
  let e' := loop_tail s e in
  (pc e' = Returned \/ pc e' = AtLoopTop)
  /\ (is_started_midi e = false -> pc e' = Returned)
  /\ is_started_midi e' = is_started_midi e
  /\ mistakes_count e' = mistakes_count e
  /\ playport e' = playport e
  /\ pending_software_notes e' = pending_software_notes e
  /\ remaining e' = remaining e.
Proof.
  cbv zeta. unfold loop_tail.
  destruct (is_started_midi e) eqn:St; cbn [negb];
    rewrite ?orb_true_r, ?orb_false_r;
    repeat break_if; fields; repeat split; auto; try discriminate.
Qed.

Lemma for_head_cases s e : ForHeadCase s e.
Proof.
  destruct (remaining e) as [|m rest] eqn:R.
  - apply Exhausted; [exact R|]. unfold for_head. now rewrite R.
  - destruct (is_started_midi e) eqn:St.
    + destruct (Timeline.tDelay (song_tempo (song s)) (set_tempo s)
                  (ticks_per_beat (song s)) m) as [d|] eqn:D.
      * destruct (is_meta m) eqn:M.
        -- apply (MetaDone s e m rest d); [exact R | exact M |].
           unfold for_head. rewrite R. fields. rewrite St. cbn [negb].
           now rewrite D, M.
        -- destruct (opens_gate s m d (count_note s (set_remaining rest e))) eqn:G.
           ++ pose proof (count_note_frame s (set_remaining rest e)) as C.
              cbv zeta in C. fields.
              destruct C as (C1 & C2 & C3 & C4 & C5 & C6 & C7 & C8 & C9 & _).
              eapply (GateOpened s e m rest d); [exact R | exact M | exact G | ..].
              ** unfold for_head. rewrite R. fields. rewrite St. cbn [negb].
                 rewrite D, M, G. reflexivity.
              ** fields. exact C4.
              ** fields. exact C2.
              ** fields. exact C1.
              ** fields. exact C3.
              ** fields. exact C7.
              ** fields. exact C8.
              ** fields. exact C9.
              ** fields. exact C6.
           ++ apply (NoteDone s e m rest d); [exact R | exact M |].
              unfold for_head. rewrite R. fields. rewrite St. cbn [negb].
              now rewrite D, M, G.
      * apply (Raised s e m rest); [exact R|].
        unfold for_head. rewrite R. fields. rewrite St. cbn [negb].
        now rewrite D.
    + apply (Cancelled s e m rest); [exact R | exact St |].
      unfold for_head. rewrite R. fields. rewrite St. reflexivity.
Qed.

(** The two ways through a poll of the gate. *)
Lemma gate_poll_cases s m d e :
  (Py.issubset (notes_to_press e) (notes_pressed e) = false
   /\ is_started_midi e = true /\ awaiting_restart_loop e = false)
  \/ gate_poll s m d e = finish_iteration s m d (leave_gate e).
Proof.
  destruct (Py.issubset (notes_to_press e) (notes_pressed e)) eqn:S;
    [right; apply gate_poll_leaves; now left|].
  destruct (is_started_midi e) eqn:St;
    [|right; apply gate_poll_leaves; right; now left].
  destruct (awaiting_restart_loop e) eqn:A;
    [right; apply gate_poll_leaves; right; now right|].
  left. repeat split.
Qed.

(** *** Cancellation *)

Lemma step_cancelled s e :
  is_started_midi e = false ->
  is_started_midi (step s e) = false
  /\ (pc (step s e) = AtForHead \/ pc (step s e) = Returned)
  /\ (pc e = AtForHead \/ pc e = Returned -> pc (step s e) = Returned).
Proof.
  intros St. unfold step. destruct (pc e) eqn:P.
  - unfold loop_top. fields. split; [exact St|]. split; [now left|].
    intros [H|H]; discriminate H.
  - assert (H : for_head s e = loop_tail s e
                \/ exists rest, for_head s e = loop_tail s (set_remaining rest e)).
    { unfold for_head. destruct (remaining e) as [|m rest]; [now left|].
      right. exists rest. fields. rewrite St. reflexivity. }
    destruct H as [H|[rest H]]; rewrite H.
    + pose proof (loop_tail_frame s e) as L. cbv zeta in L.
      destruct L as (_ & L2 & L3 & _). rewrite L3, (L2 St). auto.
    + pose proof (loop_tail_frame s (set_remaining rest e)) as L. cbv zeta in L.
      fields. destruct L as (_ & L2 & L3 & _). rewrite L3, (L2 St). auto.
  - destruct (gate_poll_cases s msg tDelay e) as [(_ & H & _)|H];
      [congruence|].
    rewrite H.
    pose proof (finish_iteration_frame s msg tDelay (leave_gate e)) as F.
    pose proof (leave_gate_frame e) as L. cbv zeta in F, L.
    destruct L as (_ & L2 & _).
    destruct F as (_ & _ & _ & _ & F5 & F6 & _).
    rewrite L2 in F6. destruct (F6 St) as [F7 F8].
    split; [exact F7|]. split.
    + destruct F5 as [F5|[F5|F5]]; auto. contradiction.
    + intros [K|K]; discriminate K.
  - fields. rewrite P. split; [exact St|]. split; auto.
Qed.

Lemma act_keeps_cancelled s a e :
  is_started_midi e = false -> is_started_midi (act s a e) = false.
Proof.
  intros St. destruct a; simpl; fields; auto.
  - now apply step_cancelled.
  - break_if; fields; exact St.
Qed.

Lemma act_keeps_pc s a e : is_run a = false -> pc (act s a e) = pc e.
Proof.
  destruct a; simpl; intros H; try discriminate; fields; try reflexivity.
  break_if; reflexivity.
Qed.

Lemma returned_stays s acts : forall e,
  pc e = Returned -> pc (exec s acts e) = Returned.
Proof.
  induction acts as [|a acts IH]; intros e H; simpl; [exact H|].
  apply IH. destruct (is_run a) eqn:R.
  - destruct a; try discriminate. simpl. unfold step. now rewrite H.
  - now rewrite act_keeps_pc.
Qed.

Lemma cancelled_one_run s acts : forall e,
  is_started_midi e = false ->
  pc e = AtForHead \/ pc e = Returned ->
  (1 <= runs acts)%nat ->
  pc (exec s acts e) = Returned.
Proof.
  induction acts as [|a acts IH]; intros e St P Hr; simpl.
  - unfold runs in Hr. simpl in Hr. lia.
  - destruct (is_run a) eqn:R.
    + destruct a; try discriminate. simpl.
      apply returned_stays. now apply step_cancelled.
    + apply IH.
      * now apply act_keeps_cancelled.
      * now rewrite act_keeps_pc.
      * unfold runs in *. simpl in Hr. now rewrite R in Hr.
Qed.

(** X1. Cancellation is prompt: once [is_started_midi] is cleared, the
    run is over after at most two steps of the engine thread, whatever
    the other threads do in between, and it stays over. *)
Theorem cancelled_run_returns (s : Settings) (acts : list Action) : forall e,
  is_started_midi e = false ->
  (2 <= runs acts)%nat ->
  pc (exec s acts e) = Returned /\ is_started_midi (exec s acts e) = false.
Proof.
  assert (Hst : forall acts e, is_started_midi e = false ->
                  is_started_midi (exec s acts e) = false).
  { intros l. induction l as [|a l IH]; intros e St; simpl; [exact St|].
    apply IH. now apply act_keeps_cancelled. }
  intros e St Hr. split; [|now apply Hst].
  revert e St Hr. induction acts as [|a acts IH]; intros e St Hr; simpl.
  - unfold runs in Hr. simpl in Hr. lia.
  - destruct (is_run a) eqn:R.
    + destruct a; try discriminate. simpl.
      destruct (step_cancelled s e St) as (S1 & S2 & _).
      apply cancelled_one_run; [exact S1 | exact S2 |].
      unfold runs in *. simpl in Hr. lia.
    + apply IH; [now apply act_keeps_cancelled|].
      unfold runs in *. simpl in Hr. now rewrite R in Hr.
Qed.

Lemma cancelled_run_returns_witness :
  pc (exec (demo_settings 1 1) [StopLearning; Run; KeyEvent wrong_key 0; Run]
        (set_is_started_midi false (at_first_gate 1 1))) = Returned.
Proof.
  refine (proj1 (cancelled_run_returns (demo_settings 1 1)
                   [StopLearning; Run; KeyEvent wrong_key 0; Run]
                   (set_is_started_midi false (at_first_gate 1 1)) eq_refl _)).
  unfold runs. simpl. lia.
Defined.

(** *** What a gate looks like *)

Lemma truthy_nonempty {A : Type} (l : list A) : Py.truthy l = true -> l <> [].
Proof. destruct l; [discriminate | intros _; discriminate]. Qed.

Lemma on_exception_pc s e :
  pc (on_exception s e) = Returned.
Proof.
  unfold on_exception.
  pose proof (loop_tail_frame s (set_is_started_midi false e)) as L.
  cbv zeta in L. destruct L as (_ & L2 & _). apply L2. reflexivity.
Qed.

Lemma gate_inv_act s a e : gate_inv s e -> gate_inv s (act s a e).
Proof.
  intros G. destruct a; simpl.
  - unfold step. destruct (pc e) eqn:P.
    + intros m d H. unfold loop_top in H. fields. discriminate H.
    + destruct (for_head_cases s e) as
        [R H|m rest R St H|m rest R H|m rest d R M H
        |m rest d eg R M Go H E1 E2 E3 E4 E5 E6 E7 E8|m rest d R M H];
        rewrite H; intros m0 d0 K.
      * destruct (loop_tail_frame s e) as ([L|L] & _); congruence.
      * destruct (loop_tail_frame s (set_remaining rest e)) as ([L|L] & _);
          congruence.
      * rewrite on_exception_pc in K. discriminate K.
      * pose proof (finish_iteration_frame s m d (set_remaining rest e)) as F.
        cbv zeta in F. destruct F as (_ & _ & _ & _ & _ & _ & F7).
        now apply F7 in K.
      * fields. injection K as <- <-.
        unfold opens_gate in Go.
        apply andb_true_iff in Go as [Go Gp].
        apply andb_true_iff in Go as [Go Gt].
        apply andb_true_iff in Go as [Gd Gn].
        pose proof (count_note_frame s (set_remaining rest e)) as C.
        cbv zeta in C. fields. destruct C as (_ & _ & _ & C4 & _).
        rewrite C4 in Gt. rewrite E1.
        split; [now apply Z.eqb_eq|]. split; [now apply truthy_nonempty|].
        split; [exact Gn|].
        apply Qnot_le_lt. intros Hle. apply Qle_bool_iff in Hle.
        rewrite Hle in Gd. discriminate Gd.
      * pose proof (finish_iteration_frame s m d
                      (count_note s (set_remaining rest e))) as F.
        cbv zeta in F. destruct F as (_ & _ & _ & _ & _ & _ & F7).
        now apply F7 in K.
    + destruct (gate_poll_cases s msg tDelay e) as [(Hs & Hst & Haw)|H].
      * pose proof (step_waiting s msg tDelay e P Hs Hst Haw) as W.
        cbv zeta in W. unfold step in W. rewrite P in W.
        destruct W as (W1 & _ & _ & _ & _ & W6 & _).
        intros m d K. rewrite W6. apply G. congruence.
      * rewrite H. intros m d K.
        pose proof (finish_iteration_frame s msg tDelay (leave_gate e)) as F.
        cbv zeta in F. destruct F as (_ & _ & _ & _ & _ & _ & F7).
        now apply F7 in K.
    + exact G.
  - exact G.
  - exact G.
  - exact G.
  - break_if; exact G.
Qed.

(** X2. Whenever the engine, started from the beginning of
    [learn_midi], stands at a gate, the practice mode is Melody, there
    are notes to press, the message at the gate is a note-on or note-off,
    and its delay is positive. *)
Theorem gate_only_in_melody (s : Settings) (acts : list Action) (t0 : Q)
  (m : Msg) (d : Q) :
  pc (exec s acts (started t0)) = InGate m d ->
  practice s = 0
  /\ notes_to_press (exec s acts (started t0)) <> []
  /\ is_note_msg m = true
  /\ (0 < d)%Q.
Proof.
  assert (H : forall l e, gate_inv s e -> gate_inv s (exec s l e)).
  { intros l. induction l as [|a l IH]; intros e G; simpl; [exact G|].
    apply IH. now apply gate_inv_act. }
  apply (H acts (started t0)). intros m0 d0 K. discriminate K.
Qed.

Lemma first_gate_reached :
  pc (exec (demo_settings 1 1) to_first_gate (started 0))
  = InGate (NoteOff 1 60 0 480) demo_delay.
Proof. vm_compute. reflexivity. Qed.

Lemma gate_only_in_melody_witness :
  practice (demo_settings 1 1) = 0
  /\ notes_to_press (exec (demo_settings 1 1) to_first_gate (started 0)) <> []
  /\ is_note_msg (NoteOff 1 60 0 480) = true
  /\ (0 < demo_delay)%Q.
Proof.
  exact (gate_only_in_melody (demo_settings 1 1) to_first_gate 0
           (NoteOff 1 60 0 480) demo_delay first_gate_reached).
Defined.

(** *** The mistakes counter *)

Lemma mistakes_bound_act s a e :
  0 < number_of_mistakes s ->
  0 <= mistakes_count e <= number_of_mistakes s ->
  0 <= mistakes_count (act s a e) <= number_of_mistakes s.
Proof.
  intros Hn Hm. destruct a; simpl; fields; auto.
  - unfold step. destruct (pc e) eqn:P.
    + unfold loop_top. fields. exact Hm.
    + destruct (for_head_cases s e) as
        [R H|m rest R St H|m rest R H|m rest d R M H
        |m rest d eg R M Go H E1 E2 E3 E4 E5 E6 E7 E8|m rest d R M H];
        rewrite H.
      * destruct (loop_tail_frame s e) as (_ & _ & _ & L & _). now rewrite L.
      * destruct (loop_tail_frame s (set_remaining rest e)) as (_ & _ & _ & L & _).
        now rewrite L.
      * unfold on_exception.
        destruct (loop_tail_frame s (set_is_started_midi false (set_remaining rest e)))
          as (_ & _ & _ & L & _). now rewrite L.
      * destruct (finish_iteration_frame s m d (set_remaining rest e))
          as (_ & _ & F & _). now rewrite F.
      * fields. now rewrite E5.
      * destruct (finish_iteration_frame s m d
                    (count_note s (set_remaining rest e))) as (_ & _ & F & _).
        destruct (count_note_frame s (set_remaining rest e))
          as (_ & _ & _ & _ & _ & _ & C & _).
        now rewrite F, C.
    + destruct (gate_poll_cases s msg tDelay e) as [(Hs & Hst & Haw)|H].
      * pose proof (step_waiting s msg tDelay e P Hs Hst Haw) as W.
        cbv zeta in W. unfold step in W. rewrite P in W.
        destruct W as (_ & _ & _ & _ & _ & _ & _ & _ & _ & _ & W11 & W12).
        destruct (Z.eq_dec (show_wrong_notes s) 1) as [E|E].
        -- destruct (W11 E) as [-> _]. unfold after_threshold.
           pose proof (wrong_ons_nonneg (notes_to_press e) (midi_queue e)).
           destruct (Z.ltb_spec (number_of_mistakes s)
                       (mistakes_count e
                        + wrong_ons (notes_to_press e) (midi_queue e)));
             destruct (Z.ltb_spec 0 (number_of_mistakes s)); cbn [andb]; lia.
        -- destruct (W12 E) as [-> _]. exact Hm.
      * rewrite H.
        destruct (finish_iteration_frame s msg tDelay (leave_gate e))
          as (_ & _ & F & _).
        destruct (leave_gate_frame e)
          as (_ & _ & _ & _ & _ & _ & _ & _ & _ & L & _).
        now rewrite F, L.
    + exact Hm.
  - break_if; fields; exact Hm.
Qed.

(** X3. With a non-zero threshold, [mistakes_count] is between 0 and
    the threshold after every step of a run, the wrong-note handler on
    or off: the count that would exceed it is reset within the same
    call of the handler. *)
Theorem mistakes_stay_bounded (s : Settings) (acts : list Action) : forall e,
  0 < number_of_mistakes s ->
  0 <= mistakes_count e <= number_of_mistakes s ->
  0 <= mistakes_count (exec s acts e) <= number_of_mistakes s.
Proof.
  induction acts as [|a acts IH]; intros e Hn Hm; simpl; [exact Hm|].
  apply IH; [exact Hn|]. now apply mistakes_bound_act.
Qed.

Lemma mistakes_stay_bounded_witness :
  0 <= mistakes_count
         (exec (demo_settings 1 1)
            (to_first_gate ++ [KeyEvent wrong_key 0; KeyEvent wrong_key 0; Run;
                               KeyEvent wrong_key 0; KeyEvent wrong_key 0; Run])
            (started 0))
    <= number_of_mistakes (demo_settings 1 1).
Proof.
  refine (mistakes_stay_bounded (demo_settings 1 1)
            (to_first_gate ++ [KeyEvent wrong_key 0; KeyEvent wrong_key 0; Run;
                               KeyEvent wrong_key 0; KeyEvent wrong_key 0; Run])
            (started 0) _ _).
  - reflexivity.
  - split; discriminate.
Defined.

(** *** The two cursors *)

Lemma count_non_meta_app a b :
  count_non_meta (a ++ b) = count_non_meta a + count_non_meta b.
Proof.
  unfold count_non_meta. rewrite filter_app, length_app. lia.
Qed.

Lemma count_non_meta_one m :
  count_non_meta [m] = if is_meta m then 0 else 1.
Proof. unfold count_non_meta. simpl. destruct (is_meta m); reflexivity. Qed.

Lemma cursor_after_finish s m d e e0 consumed :
  loop_slice s = consumed ++ m :: remaining e0 ->
  absolute_idx e0 = start_idx s + Z.of_nat (length consumed) ->
  current_idx e0 = start_idx s + count_non_meta (consumed ++ [m]) ->
  e = finish_iteration s m d e0 ->
  cursor_inv s e.
Proof.
  intros Hs Ha Hc ->. unfold cursor_inv.
  pose proof (finish_iteration_frame s m d e0) as F. cbv zeta in F.
  destruct F as (F1 & F2 & _ & F4 & F5 & _ & F7).
  destruct (pc (finish_iteration s m d e0)) eqn:P; try exact I.
  - destruct (F4 eq_refl) as [F8 _]. exists (consumed ++ [m]).
    rewrite F1, F2, F8, <- app_assoc, length_app. simpl.
    repeat split; [exact Hs | lia | exact Hc].
  - exfalso. now apply (F7 msg tDelay).
Qed.

Lemma cursor_inv_act s a e : cursor_inv s e -> cursor_inv s (act s a e).
Proof.
  intros C. destruct a; simpl.
  - unfold step. destruct (pc e) eqn:P.
    + unfold cursor_inv, loop_top. fields. exists []. simpl.
      unfold count_non_meta. simpl. repeat split; lia.
    + unfold cursor_inv in C. rewrite P in C.
      destruct C as (consumed & Hs & Ha & Hc).
      destruct (for_head_cases s e) as
        [R H|m rest R St H|m rest R H|m rest d R M H
        |m rest d eg R M Go H E1 E2 E3 E4 E5 E6 E7 E8|m rest d R M H];
        rewrite H.
      * unfold cursor_inv.
        destruct (loop_tail_frame s e) as ([L|L] & _); now rewrite L.
      * unfold cursor_inv.
        destruct (loop_tail_frame s (set_remaining rest e)) as ([L|L] & _);
          now rewrite L.
      * unfold cursor_inv. now rewrite on_exception_pc.
      * rewrite R in Hs.
        apply (cursor_after_finish s m d _ (set_remaining rest e) consumed);
          fields; try assumption; try reflexivity.
        rewrite count_non_meta_app, count_non_meta_one, M. lia.
      * unfold cursor_inv. fields. exists consumed.
        rewrite E4, E2, E3, count_non_meta_app, count_non_meta_one, M.
        rewrite R in Hs. repeat split; [exact Hs | exact Ha | lia].
      * rewrite R in Hs.
        destruct (count_note_frame s (set_remaining rest e))
          as (C1 & C2 & C3 & _).
        apply (cursor_after_finish s m d _ (count_note s (set_remaining rest e))
                 consumed); try reflexivity.
        -- rewrite C3. fields. exact Hs.
        -- rewrite C2. fields. exact Ha.
        -- rewrite C1. fields.
           rewrite count_non_meta_app, count_non_meta_one, M. lia.
    + unfold cursor_inv in C. rewrite P in C.
      destruct C as (consumed & Hs & Ha & Hc).
      destruct (gate_poll_cases s msg tDelay e) as [(Hsub & Hst & Haw)|H].
      * pose proof (step_waiting s msg tDelay e P Hsub Hst Haw) as W.
        cbv zeta in W. unfold step in W. rewrite P in W.
        destruct W as (W1 & _ & W3 & W4 & W5 & _).
        unfold cursor_inv. rewrite W1, W3, W4, W5. now exists consumed.
      * rewrite H.
        destruct (leave_gate_frame e) as (_ & _ & _ & L4 & L5 & L6 & _).
        apply (cursor_after_finish s msg tDelay _ (leave_gate e) consumed);
          try reflexivity; [now rewrite L6 | now rewrite L5 | now rewrite L4].
    + exact C.
  - exact C.
  - exact C.
  - exact C.
  - break_if; exact C.
Qed.

(** X4. The two cursors of [learn_midi] (comment of lines 464-465):
    throughout a run, between two messages [absolute_idx] is the slice
    start plus the number of messages of the slice taken so far, and
    [current_idx] the slice start plus the number of those that are not
    meta messages; at a gate the message being waited on is already
    counted in [current_idx] and not yet in [absolute_idx]. *)
Theorem cursors_count_messages (s : Settings) (acts : list Action) (t0 : Q) :
  cursor_inv s (exec s acts (started t0)).
Proof.
  assert (H : forall l e, cursor_inv s e -> cursor_inv s (exec s l e)).
  { intros l. induction l as [|a l IH]; intros e C; simpl; [exact C|].
    apply IH. now apply cursor_inv_act. }
  apply H. exact I.
Qed.

(** *** What reaches the playback port *)






(** A note pending since an earlier run is sent by the next one, when
    its first gate is answered. *)
Lemma stale_note_is_sent :
  In stale_note
    (playport (exec (demo_settings 1 1)
                 (to_first_gate
                  ++ [KeyEvent (NoteOn 0 60 80 0) 0;
                      KeyEvent (NoteOn 0 64 80 0) 0; Run; Run])
                 carried_over))
  /\ ~ In stale_note (song_tracks demo_song).
Proof.
  split.
  - vm_compute. tauto.
  - vm_compute. intros H.
    repeat (destruct H as [H|H]; [discriminate H|]). exact H.
Qed.

(** *** Tempo *)

(** X7. The tempo setting scales every delay inversely: for the same
    message, [tDelay] at [set_tempo = a] times [a] equals [tDelay] at
    [set_tempo = b] times [b]; in particular the delay at 200 % is half
    the delay at 100 %.  With [set_tempo = 0] there is no delay at all:
    the division raises. *)
Theorem tempo_scales_delay (sg : Song) (a b : Z) (m : Msg) (da db : Q) :
  Timeline.tDelay (song_tempo sg) a (ticks_per_beat sg) m = Some da ->
  Timeline.tDelay (song_tempo sg) b (ticks_per_beat sg) m = Some db ->
  a <> 0 /\ b <> 0
  /\ da * inject_Z a == db * inject_Z b
  /\ Timeline.tDelay (song_tempo sg) 0 (ticks_per_beat sg) m = None.
Proof.
  unfold Timeline.tDelay, Timeline.effective_tempo, Timeline.tick2second.
  intros Ha Hb.
  destruct (Timeline.pydiv (inject_Z (song_tempo sg * 100)) (inject_Z a))
    as [ta|] eqn:Ea; [|discriminate].
  destruct (Timeline.pydiv (inject_Z (song_tempo sg * 100)) (inject_Z b))
    as [tb|] eqn:Eb; [|discriminate].
  apply TimelineFacts.pydiv_inv in Ea as [Na ->].
  apply TimelineFacts.pydiv_inv in Eb as [Nb ->].
  destruct (Timeline.pydiv _ (inject_Z (ticks_per_beat sg))) as [sa|] eqn:Sa;
    [|discriminate].
  injection Ha as <-.
  destruct (Timeline.pydiv (inject_Z (song_tempo sg * 100) / inject_Z b * _)
              (inject_Z (ticks_per_beat sg))) as [sb|] eqn:Sb; [|discriminate].
  injection Hb as <-.
  apply TimelineFacts.pydiv_inv in Sa as [Nt ->].
  apply TimelineFacts.pydiv_inv in Sb as [_ ->].
  split; [intros ->; now apply Na|]. split; [intros ->; now apply Nb|].
  split; [field; repeat split; assumption | reflexivity].
Qed.

Lemma demo_delay_at_100 :
  Timeline.tDelay (song_tempo demo_song) 100 (ticks_per_beat demo_song)
    (NoteOff 1 60 0 480) = Some demo_delay.
Proof. vm_compute. reflexivity. Qed.

Lemma demo_delay_at_200 :
  Timeline.tDelay (song_tempo demo_song) 200 (ticks_per_beat demo_song)
    (NoteOff 1 60 0 480) = Some demo_delay_200.
Proof. vm_compute. reflexivity. Qed.

Lemma tempo_scales_delay_witness :
  demo_delay * inject_Z 100 == demo_delay_200 * inject_Z 200.
Proof.
  exact (proj1 (proj2 (proj2 (tempo_scales_delay demo_song 100 200
           (NoteOff 1 60 0 480) demo_delay demo_delay_200
           demo_delay_at_100 demo_delay_at_200)))).
Defined.

End EngineRuns.

(** ** The rest of [learnmidi.py] *)

Module LearnFacts.

Import Engine Learn PyFacts.
Local Open Scope Q_scope.

(** *** [find_nearest] *)




(** *** Channels by track *)

Lemma assign_track_spec channel : forall track track',
  assign_track channel track = Some track' ->
  Forall2 (assigned channel) track track'.
Proof.
  induction track as [|m rest IH]; intros track' H; simpl in H.
  - injection H as <-. constructor.
  - destruct (assign_msg channel m) as [m'|] eqn:E; [|discriminate].
    destruct (assign_track channel rest) as [rest'|]; [|discriminate].
    injection H as <-. constructor; [|now apply IH].
    unfold assigned. destruct m; simpl in E;
      try (destruct ((0 <=? channel) && (channel <=? 15))%Z; [|discriminate]);
      injection E as <-; simpl; repeat split.
Qed.

Lemma assign_tracks_spec offset : forall tracks k tracks',
  assign_tracks offset k tracks = Some tracks' ->
  length tracks' = length tracks
  /\ forall i track track',
       nth_error tracks i = Some track ->
       nth_error tracks' i = Some track' ->
       Forall2 (assigned (k + Z.of_nat i + offset)%Z) track track'.
Proof.
  induction tracks as [|tr rest IH]; intros k tracks' H; simpl in H.
  - injection H as <-. split; [reflexivity|]. intros [|i]; discriminate.
  - destruct (assign_track (k + offset) tr) as [tr'|] eqn:E; [|discriminate].
    destruct (assign_tracks offset (k + 1) rest) as [rest'|] eqn:R; [|discriminate].
    injection H as <-. destruct (IH _ _ R) as [Hl Hn].
    split; [simpl; now rewrite Hl|].
    intros [|i] track track' H1 H2; simpl in H1, H2.
    + injection H1 as <-. injection H2 as <-.
      replace (k + Z.of_nat 0 + offset)%Z with (k + offset)%Z by lia.
      now apply assign_track_spec.
    + replace (k + Z.of_nat (S i) + offset)%Z
        with (k + 1 + Z.of_nat i + offset)%Z by lia.
      now apply (Hn i).
Qed.

(** X9. [load_midi] tells the hands apart by track: when the
    assignment of lines 326-335 goes through, track [i] of a two-track
    file ends up on channel [i + 1] (the first track is channel 1, the
    engine's right hand) and track [i] of any other file on channel
    [i]; every [note_off] has velocity 0 afterwards; notes, note-on
    velocities, delta times, the order and the number of messages are
    as they were, and no other message is touched. *)
Theorem channels_follow_tracks (tracks tracks' : list (list Msg)) :
  assign_channels tracks = Some tracks' ->
  length tracks' = length tracks
  /\ forall i track track',
       nth_error tracks i = Some track ->
       nth_error tracks' i = Some track' ->
       Forall2 (assigned (if (length tracks =? 2)%nat
                          then Z.of_nat i + 1 else Z.of_nat i)%Z) track track'.
Proof.
  unfold assign_channels. intros H.
  destruct (assign_tracks_spec _ _ _ _ H) as [Hl Hn]. split; [exact Hl|].
  intros i track track' H1 H2. specialize (Hn i track track' H1 H2).
  destruct (length tracks =? 2)%nat.
  - now replace (Z.of_nat i + 1)%Z with (0 + Z.of_nat i + 1)%Z by lia.
  - now replace (Z.of_nat i)%Z with (0 + Z.of_nat i + 0)%Z by lia.
Qed.

Lemma channels_follow_tracks_witness :
  length [[MetaMessage 0; NoteOn 1 60 64 0; NoteOff 1 60 0 480];
          [NoteOn 2 48 70 0; NoteOff 2 48 0 480]] = 2%nat
  /\ forall i track track',
       nth_error [[MetaMessage 0; NoteOn 0 60 64 0; NoteOff 0 60 33 480];
                  [NoteOn 0 48 70 0; NoteOff 5 48 64 480]] i = Some track ->
       nth_error [[MetaMessage 0; NoteOn 1 60 64 0; NoteOff 1 60 0 480];
                  [NoteOn 2 48 70 0; NoteOff 2 48 0 480]] i = Some track' ->
       Forall2 (assigned (if (length [[MetaMessage 0; NoteOn 0 60 64 0;
                                       NoteOff 0 60 33 480];
                                      [NoteOn 0 48 70 0; NoteOff 5 48 64 480]]
                              =? 2)%nat
                          then Z.of_nat i + 1 else Z.of_nat i)%Z) track track'.
Proof.
  exact (channels_follow_tracks
           [[MetaMessage 0; NoteOn 0 60 64 0; NoteOff 0 60 33 480];
            [NoteOn 0 48 70 0; NoteOff 5 48 64 480]]
           [[MetaMessage 0; NoteOn 1 60 64 0; NoteOff 1 60 0 480];
            [NoteOn 2 48 70 0; NoteOff 2 48 0 480]] eq_refl).
Defined.

(** *** Predicted notes *)





(** *** Loop points, slice and tempo *)

Lemma clamp_q_ok v lo hi :
  lo <= hi -> lo <= clamp_q v lo hi /\ clamp_q v lo hi <= hi.
Proof.
  intros H. unfold clamp_q.
  destruct (Qle_bool v lo) eqn:E1; [split; [apply Qle_refl | exact H]|].
  destruct (Qle_bool hi v) eqn:E2; [split; [exact H | apply Qle_refl]|].
  split.
  - apply Qlt_le_weak, Qnot_le_lt. intros K. apply Qle_bool_iff in K. congruence.
  - apply Qlt_le_weak, Qnot_le_lt. intros K. apply Qle_bool_iff in K. congruence.
Qed.

(** X11. The two loop-point setters keep the loop points in order:
    if [clamp] returns a value within its bounds whenever the bounds
    are in order, then from [0 <= start_point], [start_point + 10 <=
    end_point], [end_point <= 100] any sequence of [change_start_point]
    and [change_end_point] leads to loop points with the same three
    properties; so the loop never shrinks below ten percent of the
    song. *)
Theorem loop_points_kept (clamp : Q -> Q -> Q -> Q) (changes : list PointChange) :
  (forall v lo hi, lo <= hi -> lo <= clamp v lo hi /\ clamp v lo hi <= hi) ->
  forall s, loop_points_ok s -> loop_points_ok (change_points clamp changes s).
Proof.
  intros Hc. induction changes as [|[v|v] rest IH]; intros s (H1 & H2 & H3);
    simpl; [repeat split; assumption | apply IH | apply IH].
  - unfold loop_points_ok, change_start_point. cbn [start_point end_point with_loop_points].
    destruct (Hc (start_point s + 5 * inject_Z v) 0 (end_point s - 10)) as [C1 C2];
      [lra|]. repeat split; [exact C1 | lra | exact H3].
  - unfold loop_points_ok, change_end_point. cbn [start_point end_point with_loop_points].
    destruct (Hc (end_point s + 5 * inject_Z v) (start_point s + 10) 100) as [C1 C2];
      [lra|]. repeat split; [exact H1 | exact C1 | exact C2].
Qed.

Lemma loop_points_kept_witness :
  loop_points_ok
    (change_points clamp_q [StartBy 30; EndBy (-40); StartBy (-1); EndBy 2]
       (demo_settings 1 1)).
Proof.
  apply (loop_points_kept clamp_q [StartBy 30; EndBy (-40); StartBy (-1); EndBy 2]
           clamp_q_ok (demo_settings 1 1)).
  unfold loop_points_ok. simpl. lra.
Defined.

Lemma int_floor x : 0 <= x -> Py.int x = Qfloor x.
Proof.
  destruct x as [n d]. unfold Qle. simpl. intros H.
  unfold Py.int. simpl. apply Z.quot_div_nonneg; lia.
Qed.

Lemma int_bounds x y n :
  0 <= x -> x <= y -> y <= inject_Z n ->
  (0 <= Py.int x <= Py.int y)%Z /\ (Py.int y <= n)%Z.
Proof.
  intros H0 H1 H2.
  rewrite (int_floor x H0), (int_floor y) by (eapply Qle_trans; eassumption).
  repeat split.
  - change 0%Z with (Qfloor 0). now apply Qfloor_resp_le.
  - now apply Qfloor_resp_le.
  - rewrite <- (Qfloor_Z n). now apply Qfloor_resp_le.
Qed.

(** X12. With loop points in order ([0 <= start_point <= end_point <=
    100]) the indices of lines 461-462 satisfy [0 <= start_idx <=
    end_idx <= len(song_tracks)], and the pass runs over exactly the
    [end_idx - start_idx] messages from [start_idx] on: no negative
    index wraps around and nothing is cut by the end of the list. *)
Theorem slice_within_song (s : Settings) :
  0 <= start_point s -> start_point s <= end_point s -> end_point s <= 100 ->
  (0 <= start_idx s <= end_idx s)%Z
  /\ (end_idx s <= Z.of_nat (length (song_tracks (song s))))%Z
  /\ loop_slice s
     = firstn (Z.to_nat (end_idx s - start_idx s))
         (skipn (Z.to_nat (start_idx s)) (song_tracks (song s)))
  /\ length (loop_slice s) = Z.to_nat (end_idx s - start_idx s).
Proof.
  intros H1 H2 H3.
  set (n := Z.of_nat (length (song_tracks (song s)))).
  assert (Hn : 0 <= inject_Z n).
  { unfold Qle. simpl. subst n. lia. }
  destruct (int_bounds (start_point s * inject_Z n / 100)
              (end_point s * inject_Z n / 100) n) as [[B1 B2] B3].
  - apply Qle_shift_div_l; [reflexivity|]. rewrite Qmult_0_l.
    now apply Qmult_le_0_compat.
  - apply Qmult_le_compat_r; [|discriminate].
    now apply Qmult_le_compat_r.
  - apply Qle_shift_div_r; [reflexivity|]. rewrite (Qmult_comm (inject_Z n)).
    now apply Qmult_le_compat_r.
  - subst n.
    change (Py.int (start_point s
                    * inject_Z (Z.of_nat (length (song_tracks (song s)))) / 100))
      with (start_idx s) in B1, B2.
    change (Py.int (end_point s
                    * inject_Z (Z.of_nat (length (song_tracks (song s)))) / 100))
      with (end_idx s) in B2, B3.
    assert (Hs : loop_slice s
                 = firstn (Z.to_nat (end_idx s - start_idx s))
                     (skipn (Z.to_nat (start_idx s)) (song_tracks (song s)))).
    { unfold loop_slice, Py.slice, Py.clip.
      destruct (Z.ltb_spec (start_idx s) 0); [lia|].
      destruct (Z.ltb_spec (end_idx s) 0); [lia|].
      now rewrite !Z.min_r by lia. }
    repeat split; try assumption.
    rewrite Hs, length_firstn, length_skipn. lia.
Qed.

Lemma slice_within_song_witness :
  length (loop_slice (demo_settings 1 1))
  = Z.to_nat (end_idx (demo_settings 1 1) - start_idx (demo_settings 1 1)).
Proof.
  refine (proj2 (proj2 (proj2 (slice_within_song (demo_settings 1 1) _ _ _))));
    simpl; lra.
Defined.

End LearnFacts.

(** ** The renderer across calls *)

Module RendererRuns.

Import Colors Renderer Timeline PyFacts TimelineFacts TimingFacts RendererFacts.
Local Open Scope Q_scope.

(** X14. [_load_notes_from_midi] leaves an empty song's renderer as it
    was; for any other song with a non-zero [ticks_per_beat] it
    returns, and the buffer is then the last thousand of the song's
    note-ons of positive velocity, in the song's order. *)
Theorem buffer_is_last_thousand (sg : Song) (r : State) :
  ticks_per_beat sg <> 0%Z ->
  (song_tracks sg = [] -> _load_notes_from_midi sg r = Some r)
  /\ (song_tracks sg <> [] ->
      _load_notes_from_midi sg r
      = Some (set_buffer (last_n 1000 (note_ons sg (song_tracks sg) 0)) r))
  /\ (length (last_n 1000 (note_ons sg (song_tracks sg) 0)) <= 1000)%nat.
Proof.
  intros Htpb. split; [|split].
  - intros E. unfold _load_notes_from_midi. now rewrite E.
  - intros Hne. now apply load_nonempty.
  - apply last_n_length.
Qed.

Lemma buffer_is_last_thousand_witness :
  _load_notes_from_midi Engine.demo_song running_at_5
  = Some (set_buffer
            (last_n 1000 (note_ons Engine.demo_song
                            (song_tracks Engine.demo_song) 0))
            running_at_5).
Proof.
  refine (proj1 (proj2 (buffer_is_last_thousand Engine.demo_song running_at_5 _)) _).
  - discriminate.
  - discriminate.
Defined.

Lemma secs_mono sg ct ct' :
  (0 < ticks_per_beat sg)%Z -> (0 <= song_tempo sg)%Z -> (ct <= ct')%Z ->
  inject_Z (ct * song_tempo sg) / inject_Z (ticks_per_beat sg * 1000000)
  <= inject_Z (ct' * song_tempo sg) / inject_Z (ticks_per_beat sg * 1000000).
Proof.
  intros Htpb Htempo Hct. unfold Qdiv. apply Qmult_le_compat_r.
  - rewrite <- Zle_Qle. nia.
  - apply Qinv_le_0_compat. change 0 with (inject_Z 0). rewrite <- Zle_Qle. lia.
Qed.

Lemma note_ons_sorted sg :
  (0 < ticks_per_beat sg)%Z -> (0 <= song_tempo sg)%Z ->
  forall msgs ct,
    Forall (fun m => is_meta m = false -> (0 <= msg_time m)%Z) msgs ->
    nondecreasing (map nd_start_time (note_ons sg msgs ct))
    /\ Forall (fun nd =>
         inject_Z (ct * song_tempo sg) / inject_Z (ticks_per_beat sg * 1000000)
         <= nd_start_time nd) (note_ons sg msgs ct).
Proof.
  intros Htpb Htempo.
  induction msgs as [|msg rest IH]; intros ct Hall.
  - simpl. split; [exact I | constructor].
  - inversion Hall as [|? ? Hm Hrest]; subst.
    assert (Hlater : forall t, (0 <= t)%Z ->
      nondecreasing (map nd_start_time (note_ons sg rest (ct + t)))
      /\ Forall (fun nd =>
           inject_Z (ct * song_tempo sg) / inject_Z (ticks_per_beat sg * 1000000)
           <= nd_start_time nd) (note_ons sg rest (ct + t))).
    { intros t Ht. destruct (IH (ct + t)%Z Hrest) as [Hs Hge].
      split; [exact Hs|].
      eapply Forall_impl; [|exact Hge]. intros nd Hnd.
      eapply Qle_trans; [|exact Hnd]. apply secs_mono; lia. }
    destruct msg as [t|c n v t|c n v t|c t]; cbn [note_ons is_meta msg_time].
    + apply IH, Hrest.
    + specialize (Hm eq_refl). cbn [msg_time] in Hm.
      destruct (0 <? v)%Z; [|now apply Hlater].
      destruct (IH (ct + t)%Z Hrest) as [Hs Hge].
      destruct (Hlater t Hm) as [_ Hge0].
      split.
      * cbn [map nondecreasing nd_start_time]. split; [|exact Hs].
        destruct (note_ons sg rest (ct + t)) as [|y ys]; [exact I|].
        cbn [map]. now inversion Hge.
      * constructor; [|exact Hge0].
        cbn [nd_start_time]. apply secs_mono; lia.
    + specialize (Hm eq_refl). now apply Hlater.
    + specialize (Hm eq_refl). now apply Hlater.
Qed.

Lemma nondecreasing_tl x l : nondecreasing (x :: l) -> nondecreasing l.
Proof. intros [_ H]. exact H. Qed.

Lemma nondecreasing_skipn n : forall l,
  nondecreasing l -> nondecreasing (skipn n l).
Proof.
  induction n as [|n IH]; intros l H; [exact H|].
  destruct l as [|x l]; [exact I|].
  simpl. apply IH. exact (nondecreasing_tl x l H).
Qed.

(** X15. When the ticks of the song's messages are not negative, the
    tempo is not negative and [ticks_per_beat] is positive,
    [_load_notes_from_midi] returns and the buffered notes are in
    non-decreasing order of [start_time]. *)
Theorem buffer_in_time_order (sg : Song) (r : State) :
  (0 < ticks_per_beat sg)%Z ->
  (0 <= song_tempo sg)%Z ->
  Forall (fun m => is_meta m = false -> (0 <= msg_time m)%Z) (song_tracks sg) ->
  song_tracks sg <> [] ->
  exists r', _load_notes_from_midi sg r = Some r'
    /\ nondecreasing (map nd_start_time (notes_buffer r')).
Proof.
  intros Htpb Htempo Hall Hne.
  assert (Hz : ticks_per_beat sg <> 0%Z) by lia.
  eexists. split; [exact (load_nonempty sg r Hz Hne)|].
  cbn [set_buffer notes_buffer]. unfold last_n. rewrite <- skipn_map.
  apply nondecreasing_skipn.
  exact (proj1 (note_ons_sorted sg Htpb Htempo _ 0%Z Hall)).
Qed.

Lemma buffer_in_time_order_witness :
  exists r', _load_notes_from_midi Engine.demo_song running_at_5 = Some r'
    /\ nondecreasing (map nd_start_time (notes_buffer r')).
Proof.
  refine (buffer_in_time_order Engine.demo_song running_at_5 _ _ _ _).
  - reflexivity.
  - discriminate.
  - repeat constructor; intros _; discriminate.
  - discriminate.
Defined.

(** X16. A position written by [sync_with_learn_midi] does not outlive
    the next frame: one turn of the animation loop gives the same
    renderer and the same messages whether or not a synchronisation
    came before it, and the time a running renderer is left with is
    the one computed from the wall clock. *)
Theorem tick_overrides_sync (colors : LearnColors) (send_ok : Z -> bool)
  (now position : Float64.float) (r : State) (sink : Sink) :
  animation_tick colors send_ok now (sync_with_learn_midi position r, sink)
  = animation_tick colors send_ok now (r, sink)
  /\ (forall r' sink',
        animation_tick colors send_ok now (sync_with_learn_midi position r, sink)
        = Some (r', sink') ->
        is_active r = true ->
        current_time r'
        = Float64.mul (Float64.sub now (start_time r)) (speed (settings r))).
Proof.
  assert (E : animation_tick colors send_ok now (sync_with_learn_midi position r, sink)
              = animation_tick colors send_ok now (r, sink)).
  { unfold animation_tick, sync_with_learn_midi.
    destruct (is_active r) eqn:A;
      cbn [is_active websocket_clients animation_thread notes_buffer
           start_time settings current_time];
      rewrite ?A; reflexivity. }
  split; [exact E|].
  intros r' sink' H Hact. rewrite E in H. unfold animation_tick in H.
  rewrite Hact in H.
  destruct (_generate_frame_data _ _) as [f|]; [|discriminate].
  unfold _broadcast_to_clients in H.
  cbn [websocket_clients] in H.
  destruct (negb (Py.truthy (websocket_clients r)));
    injection H as <- _; reflexivity.
Qed.

Lemma running_tick :
  exists w,
    animation_tick default_colors (fun _ => true) (Float64.of_Z 6)
      (sync_with_learn_midi (Float64.of_Z 100) running_at_5, []) = Some w.
Proof. eexists. vm_compute. reflexivity. Qed.

Lemma tick_overrides_sync_witness :
  exists r' sink',
    animation_tick default_colors (fun _ => true) (Float64.of_Z 6)
      (sync_with_learn_midi (Float64.of_Z 100) running_at_5, [])
    = Some (r', sink')
    /\ current_time r'
       = Float64.mul (Float64.sub (Float64.of_Z 6) (start_time running_at_5))
           (speed (settings running_at_5)).
Proof.
  destruct running_tick as [[r' sink'] E].
  exists r', sink'. split; [exact E|].
  exact (proj2 (tick_overrides_sync default_colors (fun _ => true)
                  (Float64.of_Z 6) (Float64.of_Z 100) running_at_5 [])
           r' sink' E eq_refl).
Defined.

Lemma keys_shape :
  forallb (fun k =>
    (21 <=? key_midi_note k)%Z && (key_midi_note k <=? 108)%Z
    && (0 <=? key_x_position k)%Z
    && (key_x_position k + key_width k <=? 1040)%Z
    && (key_width k =? (if key_is_black k then 12 else 20))%Z
    && Bool.eqb (key_is_black k)
         (match get_note_type (key_midi_note k) with
          | black => true | white => false end)) piano_keys = true.
Proof. vm_compute. reflexivity. Qed.

Lemma Forall2_In_l {A B} (R : A -> B -> Prop) l l' x :
  Forall2 R l l' -> In x l -> exists y, In y l' /\ R x y.
Proof.
  induction 1 as [|a b l l' Hab _ IH]; intros Hin; [contradiction|].
  destruct Hin as [<-|Hin].
  - exists b. split; [now left | exact Hab].
  - destruct (IH Hin) as [y [Hy Hr]]. exists y. split; [now right | exact Hr].
Qed.

(** X17. Whatever the buffer and the settings, every note of a frame
    sits over a key of the 88-key layout: its number is in 21..108,
    its box is inside the 1040 units the 52 white keys span, it is 12
    wide over a black key and 20 over a white one, it is marked black
    exactly when [get_note_type] says so, and it has the configured
    height. *)
Theorem frame_notes_over_keys (colors : LearnColors) (r : State) (f : Frame) :
  _generate_frame_data colors r = Some f ->
  forall v, In v (frame_notes f) ->
    (21 <= vn_midi_note v <= 108)%Z
    /\ (0 <= vn_x_position v)%Z
    /\ (vn_x_position v + vn_width v <= 1040)%Z
    /\ vn_width v = (if vn_is_black_key v then 12 else 20)%Z
    /\ (vn_is_black_key v = true <-> get_note_type (vn_midi_note v) = black)
    /\ vn_height v = note_height (settings r).
Proof.
  intros H v Hv. unfold _generate_frame_data in H.
  destruct (frame_loop colors r (notes_buffer r) []) as [out|] eqn:F;
    [|discriminate].
  injection H as <-. cbn [frame_notes] in Hv.
  apply frame_loop_spec in F as [added [-> Hall]]. cbn [app] in Hv.
  destruct (Forall2_In_l _ _ _ _ Hall Hv)
    as [note [_ [[En _] [Eh [_ [k [K [Ex [Ew Eb]]]]]]]]].
  unfold key_info in K. apply find_some in K as [Hin Ek].
  apply Z.eqb_eq in Ek.
  pose proof (proj1 (forallb_forall _ _) keys_shape k Hin) as Hk.
  cbv beta in Hk. rewrite !andb_true_iff in Hk.
  destruct Hk as [[[[[H21 H108] Hx0] Hx1] Hw] Hb].
  apply Z.leb_le in H21, H108, Hx0, Hx1. apply Z.eqb_eq in Hw.
  apply eqb_prop in Hb.
  rewrite En, Ex, Ew, Eb, Eh, <- Ek.
  split; [lia|]. split; [exact Hx0|]. split; [exact Hx1|].
  split; [exact Hw|]. split; [|reflexivity].
  rewrite Hb. destruct (get_note_type (key_midi_note k)); split;
    intros; congruence.
Qed.

Lemma running_frame :
  exists f, _generate_frame_data default_colors running_at_5 = Some f
    /\ exists v, In v (frame_notes f).
Proof.
  eexists. split; [vm_compute; reflexivity|].
  eexists. left. reflexivity.
Qed.

Lemma frame_notes_over_keys_witness :
  exists f v,
    _generate_frame_data default_colors running_at_5 = Some f
    /\ In v (frame_notes f)
    /\ (21 <= vn_midi_note v <= 108)%Z
    /\ (vn_x_position v + vn_width v <= 1040)%Z.
Proof.
  destruct running_frame as [f [Hf [v Hv]]].
  exists f, v. split; [exact Hf|]. split; [exact Hv|].
  pose proof (frame_notes_over_keys default_colors running_at_5 f Hf v Hv)
    as [Hn [_ [Hx _]]].
  split; [exact Hn | exact Hx].
Defined.

Lemma broadcast_fields send_ok m r sink :
  websocket_clients (fst (_broadcast_to_clients send_ok m (r, sink)))
  = filter send_ok (websocket_clients r)
  /\ is_active (fst (_broadcast_to_clients send_ok m (r, sink))) = is_active r
  /\ animation_thread (fst (_broadcast_to_clients send_ok m (r, sink)))
     = animation_thread r
  /\ notes_buffer (fst (_broadcast_to_clients send_ok m (r, sink)))
     = notes_buffer r
  /\ current_time (fst (_broadcast_to_clients send_ok m (r, sink)))
     = current_time r
  /\ start_time (fst (_broadcast_to_clients send_ok m (r, sink))) = start_time r
  /\ settings (fst (_broadcast_to_clients send_ok m (r, sink))) = settings r
  /\ snd (_broadcast_to_clients send_ok m (r, sink))
     = sink ++ map (fun c => (c, m)) (filter send_ok (websocket_clients r)).
Proof.
  unfold _broadcast_to_clients.
  destruct (websocket_clients r) as [|c cs] eqn:E; cbn [Py.truthy negb fst snd].
  - rewrite E. cbn. rewrite app_nil_r. tauto.
  - cbn. tauto.
Qed.

Lemma load_fields sg r r' :
  _load_notes_from_midi sg r = Some r' ->
  websocket_clients r' = websocket_clients r
  /\ is_active r' = is_active r
  /\ animation_thread r' = animation_thread r
  /\ current_time r' = current_time r
  /\ start_time r' = start_time r
  /\ settings r' = settings r
  /\ ((length (notes_buffer r) <= 1000)%nat ->
      (length (notes_buffer r') <= 1000)%nat).
Proof.
  unfold _load_notes_from_midi.
  destruct (negb (Py.truthy (song_tracks sg))).
  - intros [= <-]. tauto.
  - destruct (load_loop sg (song_tracks sg) 0 []) as [buf|] eqn:L;
      [|discriminate].
    intros [= <-]. cbn. repeat (split; [reflexivity|]).
    intros _. eapply (load_loop_bounded sg); [|exact L]. simpl. lia.
Qed.

Lemma start_fresh sg now r :
  ticks_per_beat sg <> 0%Z ->
  is_active r = false -> enabled (settings r) = true -> notes_buffer r = [] ->
  exists r', start_animation sg now r = Some r'
    /\ websocket_clients r' = websocket_clients r
    /\ is_active r' = true /\ animation_thread r' = true
    /\ current_time r' = Float64.of_Z 0 /\ start_time r' = now
    /\ settings r' = settings r
    /\ notes_buffer r' = last_n 1000 (note_ons sg (song_tracks sg) 0).
Proof.
  intros Htpb A En B. unfold start_animation. rewrite A, En. cbn [orb negb].
  destruct (song_tracks sg) as [|m rest] eqn:E.
  - unfold _load_notes_from_midi. rewrite E. cbn [Py.truthy negb].
    eexists. split; [reflexivity|]. cbn. rewrite B. tauto.
  - rewrite load_nonempty by (try exact Htpb; rewrite E; discriminate).
    eexists. split; [reflexivity|]. cbn. rewrite E. tauto.
Qed.

(** X18. [update_settings] on a song with a non-zero [ticks_per_beat]
    returns with the new settings merged into the old ones.  A stopped
    renderer is otherwise untouched and nothing is sent.  A running
    one is stopped, its subscribers that accept it being sent the stop
    message; it is running afterwards exactly when the merged settings
    enable it, and then it has been started afresh: time zero, the
    clock of the call, the song's notes loaded again. *)
Theorem settings_update_restarts (sg : Song) (send_ok : Z -> bool)
  (now : Float64.float)
  (p : Patch) (r : State) (sink : Sink) :
  ticks_per_beat sg <> 0%Z ->
  exists r',
    update_settings sg send_ok now p (r, sink)
    = Some (r', sink ++ (if is_active r
                         then map (fun c => (c, StopMessage))
                                (filter send_ok (websocket_clients r))
                         else []))
    /\ settings r' = apply_patch p (settings r)
    /\ is_active r' = is_active r && enabled (apply_patch p (settings r))
    /\ (is_active r = false ->
        websocket_clients r' = websocket_clients r
        /\ notes_buffer r' = notes_buffer r
        /\ current_time r' = current_time r
        /\ start_time r' = start_time r)
    /\ (is_active r = true ->
        websocket_clients r' = filter send_ok (websocket_clients r)
        /\ notes_buffer r'
           = if enabled (apply_patch p (settings r))
             then last_n 1000 (note_ons sg (song_tracks sg) 0) else [])
    /\ (is_active r' = true ->
        current_time r' = Float64.of_Z 0 /\ start_time r' = now).
Proof.
  intros Htpb. unfold update_settings.
  destruct (is_active r) eqn:A; cbn [is_active].
  - unfold stop_animation.
    match goal with
    | |- context [_broadcast_to_clients send_ok StopMessage (?r0, sink)] =>
        pose proof (broadcast_fields send_ok StopMessage r0 sink)
          as [Hc [Ha [Ht [Hb [Hct [Hst [Hs Hsink]]]]]]];
        destruct (_broadcast_to_clients send_ok StopMessage (r0, sink))
          as [r1 sink1]
    end.
    cbn [fst snd websocket_clients is_active animation_thread notes_buffer
         current_time start_time settings] in *.
    subst sink1. rewrite Hs.
    destruct (enabled (apply_patch p (settings r))) eqn:En.
    + destruct (start_fresh sg now r1 Htpb Ha (eq_trans (f_equal enabled Hs) En) Hb)
        as [r2 [-> [Hc2 [Ha2 [_ [Hct2 [Hst2 [Hs2 Hb2]]]]]]]].
      exists r2. split; [reflexivity|].
      split; [congruence|]. split; [exact Ha2|].
      split; [discriminate|]. split; [|tauto].
      intros _. split; congruence.
    + exists r1. split; [reflexivity|].
      split; [exact Hs|]. split; [exact Ha|].
      split; [discriminate|]. split; [|congruence].
      intros _. split; congruence.
  - rewrite app_nil_r. eexists. split; [reflexivity|]. cbn.
    split; [reflexivity|]. split; [reflexivity|].
    split; [tauto|]. split; [discriminate|]. discriminate.
Qed.

Lemma settings_update_restarts_witness :
  exists r',
    update_settings Engine.demo_song (fun _ => true) (Float64.of_Z 9) faster
      (running_at_5, [])
    = Some (r', [(7%Z, StopMessage)])
    /\ is_active r' = true /\ speed (settings r') = Float64.of_Z 2.
Proof.
  destruct (settings_update_restarts Engine.demo_song (fun _ => true)
              (Float64.of_Z 9) faster running_at_5 [])
    as [r' [Hrun [Hs [Ha _]]]]; [discriminate|].
  exists r'. split; [exact Hrun|]. split; [exact Ha|].
  rewrite Hs. reflexivity.
Defined.

(** X19. Starting twice is starting once: a renderer that
    [start_animation] has returned is left as it is by another
    [start_animation], at whatever time. *)
Theorem start_is_idempotent (sg : Song) (now now' : Float64.float)
  (r r' : State) :
  start_animation sg now r = Some r' ->
  start_animation sg now' r' = Some r'.
Proof.
  unfold start_animation at 1.
  destruct (is_active r || negb (enabled (settings r))) eqn:C.
  - intros [= <-]. unfold start_animation. now rewrite C.
  - destruct (_load_notes_from_midi sg _) as [r0|] eqn:L; [|discriminate].
    intros [= <-]. apply load_fields in L as [_ [Ha _]]. cbn in Ha.
    unfold start_animation. cbn [is_active]. rewrite Ha. reflexivity.
Qed.

Lemma demo_start :
  exists r', start_animation Engine.demo_song (Float64.of_Z 3)
               (constructed settings_200)
             = Some r' /\ is_active r' = true.
Proof. eexists. split; vm_compute; reflexivity. Qed.

Lemma start_is_idempotent_witness :
  exists r',
    start_animation Engine.demo_song (Float64.of_Z 3)
      (constructed settings_200) = Some r'
    /\ start_animation Engine.demo_song (Float64.of_Z 4) r' = Some r'.
Proof.
  destruct demo_start as [r' [Hs _]]. exists r'. split; [exact Hs|].
  exact (start_is_idempotent Engine.demo_song (Float64.of_Z 3) (Float64.of_Z 4)
           _ r' Hs).
Defined.

Lemma consistent_ext r r' :
  notes_buffer r' = notes_buffer r -> is_active r' = is_active r ->
  animation_thread r' = animation_thread r -> settings r' = settings r ->
  consistent r -> consistent r'.
Proof.
  unfold consistent. intros -> -> -> ->. tauto.
Qed.

Lemma stopped_consistent r :
  is_active r = false -> notes_buffer r = [] -> consistent r.
Proof.
  unfold consistent. intros -> ->. simpl.
  split; [lia|]. split; [discriminate|]. split; [discriminate | reflexivity].
Qed.

Lemma stop_fields send_ok r sink :
  websocket_clients (fst (stop_animation send_ok (r, sink)))
  = filter send_ok (websocket_clients r)
  /\ is_active (fst (stop_animation send_ok (r, sink))) = false
  /\ notes_buffer (fst (stop_animation send_ok (r, sink))) = []
  /\ settings (fst (stop_animation send_ok (r, sink))) = settings r
  /\ snd (stop_animation send_ok (r, sink))
     = sink ++ map (fun c => (c, StopMessage))
                 (filter send_ok (websocket_clients r)).
Proof.
  unfold stop_animation.
  match goal with
  | |- context [_broadcast_to_clients send_ok StopMessage (?r0, sink)] =>
      pose proof (broadcast_fields send_ok StopMessage r0 sink)
        as [Hc [Ha [_ [Hb [_ [_ [Hs Hsink]]]]]]]
  end.
  cbn [websocket_clients is_active notes_buffer settings] in *. tauto.
Qed.

Lemma start_fields sg now r r' :
  start_animation sg now r = Some r' ->
  websocket_clients r' = websocket_clients r
  /\ settings r' = settings r
  /\ (consistent r -> consistent r').
Proof.
  unfold start_animation.
  destruct (is_active r || negb (enabled (settings r))) eqn:C.
  - intros [= <-]. tauto.
  - destruct (_load_notes_from_midi sg _) as [r0|] eqn:L; [|discriminate].
    intros [= <-]. apply orb_false_elim in C as [A En].
    apply negb_false_iff in En.
    apply load_fields in L as [Hc [Ha [_ [_ [_ [Hs Hb]]]]]].
    cbn in Hc, Ha, Hs, Hb. cbn.
    split; [exact Hc|]. split; [exact Hs|].
    intros [Hlen [_ [_ Hempty]]]. unfold consistent. cbn.
    split; [exact (Hb Hlen)|]. split; [intros _; congruence|].
    split; [reflexivity|]. congruence.
Qed.

Lemma tick_fields colors send_ok now r sink r' sink' :
  animation_tick colors send_ok now (r, sink) = Some (r', sink') ->
  notes_buffer r' = notes_buffer r /\ is_active r' = is_active r
  /\ animation_thread r' = animation_thread r /\ settings r' = settings r
  /\ (forall c, In c (websocket_clients r') -> In c (websocket_clients r))
  /\ exists extra, sink' = sink ++ extra
       /\ forall c m, In (c, m) extra ->
            In c (websocket_clients r) /\ send_ok c = true.
Proof.
  unfold animation_tick. destruct (is_active r) eqn:A.
  - destruct (_generate_frame_data _ _) as [f|]; [|discriminate].
    match goal with
    | |- Some (_broadcast_to_clients send_ok ?m (?r0, sink)) = _ -> _ =>
        pose proof (broadcast_fields send_ok m r0 sink)
          as [Hc [Ha [Ht [Hb [_ [_ [Hs Hsink]]]]]]];
        destruct (_broadcast_to_clients send_ok m (r0, sink)) as [r1 sink1]
    end.
    cbn [fst snd websocket_clients is_active animation_thread notes_buffer
         settings] in *.
    intros [= <- <-].
    split; [exact Hb|]. split; [congruence|]. split; [exact Ht|].
    split; [exact Hs|]. split.
    + intros c Hin. rewrite Hc in Hin. now apply filter_In in Hin.
    + eexists. split; [exact Hsink|].
      intros c m Hin. apply in_map_iff in Hin as [c' [[= <- _] Hin]].
      now apply filter_In in Hin.
  - intros [= <- <-]. split; [reflexivity|]. split; [exact A|].
    do 2 (split; [reflexivity|]).
    split; [auto|]. exists []. split; [now rewrite app_nil_r|].
    intros; contradiction.
Qed.

Lemma update_fields sg send_ok now p r sink r' sink' :
  update_settings sg send_ok now p (r, sink) = Some (r', sink') ->
  (consistent r -> consistent r')
  /\ (forall c, In c (websocket_clients r') -> In c (websocket_clients r))
  /\ exists extra, sink' = sink ++ extra
       /\ forall c m, In (c, m) extra ->
            In c (websocket_clients r) /\ send_ok c = true.
Proof.
  unfold update_settings. destruct (is_active r) eqn:A; cbn [is_active].
  - match goal with
    | |- context [stop_animation send_ok (?r0, sink)] =>
        pose proof (stop_fields send_ok r0 sink) as [Hc [Ha [Hb [Hs Hsink]]]];
        destruct (stop_animation send_ok (r0, sink)) as [r1 sink1]
    end.
    cbn [fst snd websocket_clients settings] in *.
    assert (Haud : forall c, In c (websocket_clients r1) ->
                             In c (websocket_clients r)).
    { intros c Hin. rewrite Hc in Hin. now apply filter_In in Hin. }
    assert (Hext : exists extra, sink1 = sink ++ extra
              /\ forall c m, In (c, m) extra ->
                   In c (websocket_clients r) /\ send_ok c = true).
    { eexists. split; [exact Hsink|].
      intros c m Hin. apply in_map_iff in Hin as [c' [[= <- _] Hin]].
      now apply filter_In in Hin. }
    destruct (enabled (settings r1)).
    + destruct (start_animation sg now r1) as [r2|] eqn:S; [|discriminate].
      intros [= <- <-]. apply start_fields in S as [Hc2 [_ Hk]].
      split; [intros _; apply Hk, stopped_consistent; assumption|].
      split; [rewrite Hc2; exact Haud | exact Hext].
    + intros [= <- <-].
      split; [intros _; apply stopped_consistent; assumption|].
      split; [exact Haud | exact Hext].
  - intros [= <- <-]. split.
    + intros [Hlen [_ [_ Hempty]]]. unfold consistent. cbn.
      split; [exact Hlen|]. split; [discriminate|].
      split; [discriminate | intros _; exact (Hempty A)].
    + split; [auto|]. exists []. split; [now rewrite app_nil_r|].
      intros; contradiction.
Qed.

Lemma op_effect sg colors send_ok op r sink r' sink' :
  apply_op sg colors send_ok op (r, sink) = Some (r', sink') ->
  (consistent r -> consistent r')
  /\ (forall c, In c (websocket_clients r') ->
        In c (websocket_clients r) \/ In c (subscribed [op]))
  /\ exists extra, sink' = sink ++ extra
       /\ forall c m, In (c, m) extra ->
            In c (websocket_clients r) /\ send_ok c = true.
Proof.
  assert (Hnone : exists extra : Sink, sink = sink ++ extra
            /\ forall c m, In (c, m) extra ->
                 In c (websocket_clients r) /\ send_ok c = true).
  { exists []. split; [now rewrite app_nil_r|]. intros; contradiction. }
  destruct op as [client|client|now| |now|position|now p];
    cbn [apply_op fst snd subscribed].
  - intros [= <- <-]. unfold add_websocket_client.
    destruct (Py.mem client (websocket_clients r)).
    + split; [auto|]. split; [auto | exact Hnone].
    + split; [apply consistent_ext; reflexivity|].
      split; [|exact Hnone]. cbn. intros c Hin.
      apply in_app_or in Hin as [Hin|[<-|[]]]; auto.
  - intros [= <- <-].
    split; [apply consistent_ext; reflexivity|].
    split; [|exact Hnone]. cbn. intros c Hin.
    apply filter_In in Hin. tauto.
  - destruct (start_animation sg now r) as [r0|] eqn:S; [|discriminate].
    intros [= <- <-]. apply start_fields in S as [Hc [_ Hk]].
    split; [exact Hk|]. split; [rewrite Hc; auto | exact Hnone].
  - pose proof (stop_fields send_ok r sink) as [Hc [Ha [Hb [_ Hsink]]]].
    destruct (stop_animation send_ok (r, sink)) as [r1 sink1].
    cbn [fst snd] in *. intros [= <- <-].
    split; [intros _; apply stopped_consistent; assumption|].
    split.
    + intros c Hin. rewrite Hc in Hin. apply filter_In in Hin. tauto.
    + eexists. split; [exact Hsink|].
      intros c m Hin. apply in_map_iff in Hin as [c' [[= <- _] Hin]].
      now apply filter_In in Hin.
  - intros H. apply tick_fields in H as [Hb [Ha [Ht [Hs [Hc Hext]]]]].
    split; [now apply consistent_ext|]. split; [auto | exact Hext].
  - intros [= <- <-]. unfold sync_with_learn_midi.
    destruct (is_active r) eqn:A.
    + split; [apply consistent_ext; try reflexivity; cbn; congruence|].
      split; [auto | exact Hnone].
    + split; [auto|]. split; [auto | exact Hnone].
  - intros H. apply update_fields in H as [Hk [Hc Hext]].
    split; [exact Hk|]. split; [auto | exact Hext].
Qed.

Lemma run_effect sg colors send_ok : forall ops r sink r' sink',
  run_ops sg colors send_ok ops (r, sink) = Some (r', sink') ->
  (consistent r -> consistent r')
  /\ (forall c, In c (websocket_clients r') ->
        In c (websocket_clients r) \/ In c (subscribed ops))
  /\ exists extra, sink' = sink ++ extra
       /\ forall c m, In (c, m) extra ->
            (In c (websocket_clients r) \/ In c (subscribed ops))
            /\ send_ok c = true.
Proof.
  induction ops as [|op rest IH]; intros r sink r' sink' H; simpl in H.
  - injection H as <- <-. split; [auto|]. split; [auto|].
    exists []. split; [now rewrite app_nil_r|]. intros; contradiction.
  - destruct (apply_op sg colors send_ok op (r, sink)) as [[r1 sink1]|] eqn:O;
      [|discriminate].
    apply op_effect in O as [Hk1 [Hc1 [extra1 [-> Hx1]]]].
    apply IH in H as [Hk [Hc [extra [-> Hx]]]].
    assert (Hsub : forall c,
      In c (websocket_clients r1) \/ In c (subscribed rest) ->
      In c (websocket_clients r) \/ In c (subscribed (op :: rest))).
    { intros c [Hin|Hin].
      - destruct (Hc1 c Hin) as [?|Hop]; [now left|]. right.
        destruct op; cbn in Hop |- *; tauto.
      - right. destruct op; cbn; auto. }
    split; [auto|]. split; [intros c Hin; apply Hsub, Hc, Hin|].
    exists (extra1 ++ extra). split; [now rewrite app_assoc|].
    intros c m Hin. apply in_app_or in Hin as [Hin|Hin].
    + destruct (Hx1 c m Hin) as [Hcl Hok]. split; [now left | exact Hok].
    + destruct (Hx c m Hin) as [Hcl Hok]. split; [now apply Hsub | exact Hok].
Qed.

(** X20. Between calls a renderer is consistent: at most a thousand
    notes are buffered, none while it is stopped, and a running
    renderer is enabled and has its thread.  It is so when
    constructed, and every sequence of calls that returns (subscribe,
    unsubscribe, start, stop, frame, synchronise, settings update)
    keeps it so. *)
Theorem renderer_stays_consistent (sg : Song) (colors : LearnColors)
  (send_ok : Z -> bool) (ops : list Op) (st : Settings) (r : State)
  (sink : Sink) :
  run_ops sg colors send_ok ops (constructed st, []) = Some (r, sink) ->
  consistent r.
Proof.
  intros H. apply run_effect in H as [Hk _]. apply Hk.
  apply stopped_consistent; reflexivity.
Qed.

Lemma demo_session :
  exists r sink,
    run_ops Engine.demo_song default_colors (fun _ => true) demo_calls
      (constructed settings_200, []) = Some (r, sink)
    /\ length sink = 3%nat.
Proof. do 2 eexists. split; vm_compute; reflexivity. Qed.

Lemma renderer_stays_consistent_witness :
  exists r sink,
    run_ops Engine.demo_song default_colors (fun _ => true) demo_calls
      (constructed settings_200, []) = Some (r, sink)
    /\ consistent r.
Proof.
  destruct demo_session as [r [sink [H _]]]. exists r, sink.
  split; [exact H|].
  exact (renderer_stays_consistent Engine.demo_song default_colors
           (fun _ => true) demo_calls settings_200 r sink H).
Defined.

(** X21. Nothing is ever sent to a stranger: every message in the
    sink of a sequence of calls on a fresh renderer went to a client
    that the sequence subscribes and whose [send] returns. *)
Theorem only_subscribers_hear (sg : Song) (colors : LearnColors)
  (send_ok : Z -> bool) (ops : list Op) (st : Settings) (r : State)
  (sink : Sink) :
  run_ops sg colors send_ok ops (constructed st, []) = Some (r, sink) ->
  forall c m, In (c, m) sink -> In c (subscribed ops) /\ send_ok c = true.
Proof.
  intros H c m Hin. apply run_effect in H as [_ [_ [extra [-> Hx]]]].
  cbn [app] in Hin. destruct (Hx c m Hin) as [[[]|Hs] Hok]. tauto.
Qed.

Lemma only_subscribers_hear_witness :
  exists r sink,
    run_ops Engine.demo_song default_colors (fun _ => true) demo_calls
      (constructed settings_200, []) = Some (r, sink)
    /\ length sink = 3%nat
    /\ forall c m, In (c, m) sink -> In c (subscribed demo_calls).
Proof.
  destruct demo_session as [r [sink [H Hlen]]]. exists r, sink.
  split; [exact H|]. split; [exact Hlen|].
  intros c m Hin.
  exact (proj1 (only_subscribers_hear Engine.demo_song default_colors
                  (fun _ => true) demo_calls settings_200 r sink H c m Hin)).
Defined.

End RendererRuns.
